(** * youtube-music-mcp: the client wrapper and the tool dispatchers

    A shallow embedding of [src/ytmusic_client.py] (class
    [YouTubeMusicClient]) and of the [call_tool] dispatchers of
    [src/server.py] and [src/server_remote.py].

    The remote YouTube Data API is the environment.  Every remote call of
    the client ([...execute()]) is logged; the remote's answer to a call is
    an arbitrary function of the calls made before it and of the call's
    arguments, so that every deterministic remote (and every single run of
    any other) is an instance.  Python exceptions are values of the
    result type; [while True] is cut by fuel and running out of fuel is a
    third outcome, distinct from returning and from raising. *)

From Stdlib Require Import ZArith String Ascii List Lia Bool DecimalString.
From stdpp Require Import gmap strings list.
Import ListNotations.
Local Open Scope string_scope.
Local Open Scope Z_scope.
Local Open Scope list_scope.

(** ** Python values *)

Module Py.

(** [bool(s)] for [s : Optional[str]]: [None] and [""] are falsy. *)
Definition truthy_str (o : option string) : bool :=
  match o with
  | None => false
  | Some s => negb (String.eqb s "")
  end.

(** [bool(n)] for [n : Optional[int]]: [None] and [0] are falsy. *)
Definition truthy_int (o : option Z) : bool :=
  match o with
  | None => false
  | Some n => negb (n =? 0)
  end.

(** [bool(l)] for a list. *)
Definition truthy_list {A} (l : list A) : bool :=
  match l with
  | [] => false
  | _ :: _ => true
  end.

(** [str(x)] inside an f-string, [x : Optional[str]]. *)
Definition str_opt (o : option string) : string :=
  match o with
  | None => "None"
  | Some s => s
  end.

(** [str(n)] for an [int]. *)
Definition str_int (n : Z) : string :=
  NilZero.string_of_int (Z.to_int n).

(** [c.lower()] on one character (the letters A-Z; other characters,
    and the bytes of a multi-byte character, are kept). *)
Definition lower_ascii (c : ascii) : ascii :=
  let n := nat_of_ascii c in
  if (Nat.leb 65 n && Nat.leb n 90)%bool then ascii_of_nat (n + 32) else c.

(** [s.lower()]. *)
Fixpoint lower (s : string) : string :=
  match s with
  | EmptyString => EmptyString
  | String c s' => String (lower_ascii c) (lower s')
  end.

(** [needle in hay]. *)
Fixpoint contains (needle hay : string) : bool :=
  if String.prefix needle hay then true
  else match hay with
       | EmptyString => false
       | String _ hay' => contains needle hay'
       end.

(** [sep.join(l)]. *)
Fixpoint join (sep : string) (l : list string) : string :=
  match l with
  | [] => ""
  | [x] => x
  | x :: l' => x +:+ sep +:+ join sep l'
  end.

(** The newline character of the f-strings. *)
Definition nl : string := String (ascii_of_nat 10) EmptyString.

(** [s[:n]]. *)
Definition take (n : nat) (s : string) : string := String.substring 0 n s.

End Py.

(** ** Exceptions and outcomes *)

(** The exception classes that the modelled code raises or catches.
    [HttpError] stands for whatever the transport raises; all of them are
    subclasses of [Exception]. *)
Inductive exn_class := RuntimeError | ValueError | KeyError | TypeError | HttpError.

(** An exception: its class and [str(e)]. *)
Record exn := Exn { exn_type : exn_class; exn_str : string }.

(** A computation returns a value, raises, or is still running when the
    fuel of a [while True] loop is used up. *)
Inductive outcome (A : Type) :=
| Ret (a : A)
| Raise (e : exn)
| OutOfFuel.
Arguments Ret {A} a.
Arguments Raise {A} e.
Arguments OutOfFuel {A}.

Definition is_ret {A} (o : outcome A) : bool :=
  match o with Ret _ => true | _ => false end.

Definition raised {A} (o : outcome A) : option exn :=
  match o with Raise e => Some e | _ => None end.

(** ** The remote API *)

(** A JSON value inside a remote resource.  The client never looks into
    a nested list or dict; [JRaw] keeps one by its printed form and by
    whether it is non-empty. *)
Inductive jval :=
| JNull
| JStr (s : string)
| JNum (n : Z)
| JRaw (printed : string) (nonempty : bool).

(** [bool(v)]. *)
Definition truthy_jval (o : option jval) : bool :=
  match o with
  | None | Some JNull => false
  | Some (JStr s) => negb (String.eqb s "")
  | Some (JNum n) => negb (n =? 0)
  | Some (JRaw _ nonempty) => nonempty
  end.

(** [str(v)], [None] for an absent key read with [.get]. *)
Definition str_jval (o : option jval) : string :=
  match o with
  | None | Some JNull => "None"
  | Some (JStr s) => s
  | Some (JNum n) => Py.str_int n
  | Some (JRaw printed _) => printed
  end.

(** [item["id"]] of a search result. *)
Record search_id := SearchId {
  id_videoId : option string;
  id_playlistId : option string }.

(** [item["snippet"]] of a search result. *)
Record search_snippet := SearchSnippet {
  ss_title : option string;
  ss_channelTitle : option string;
  ss_channelId : option string;
  ss_description : option string;
  ss_thumbnails : option jval;
  ss_publishedAt : option string }.

Record search_item := SearchItem {
  si_id : option search_id;
  si_snippet : option search_snippet }.

Record search_response := SearchResponse {
  sr_items : option (list search_item) }.

(** A playlist snippet is a dict that [update_playlist] writes into. *)
Abbreviation snippet_dict := (gmap string jval).

Record content_details := ContentDetails { cd_itemCount : option Z }.

(** A playlist resource, as [playlists().list], [insert] and [update]
    return it; absent keys are [None]. *)
Record playlist_resource := PlaylistResource {
  pr_id : option string;
  pr_snippet : option snippet_dict;
  pr_status : option jval;
  pr_contentDetails : option content_details }.

Record playlists_response := PlaylistsResponse {
  plr_items : option (list playlist_resource) }.

Record resource_id := ResourceId { rid_videoId : option string }.

(** [item["snippet"]] of a playlist item. *)
Record item_snippet := ItemSnippet {
  is_title : option string;
  is_resourceId : option resource_id;
  is_videoOwnerChannelTitle : option string;
  is_position : option Z }.

Record playlist_item := PlaylistItem { pi_snippet : option item_snippet }.

(** One page of [playlistItems().list]. *)
Record items_response := ItemsResponse {
  ir_items : option (list playlist_item);
  ir_nextPageToken : option string }.

(** The body of [playlists().update]. *)
Record update_body := UpdateBody {
  ub_id : string;
  ub_snippet : snippet_dict;
  ub_status : jval }.

(** A remote call, with the keyword arguments the client passes. *)
Inductive call :=
| SearchList (q : string) (type : string) (maxResults : Z)
    (videoCategoryId : option string)
| PlaylistsInsert (title description privacyStatus : string)
| PlaylistItemsInsert (playlistId videoId : string)
| PlaylistsListId (part : string) (id : string)
| PlaylistsListMine (maxResults : Z)
| PlaylistItemsList (playlistId : string) (maxResults : Z)
    (pageToken : option string)
| PlaylistsDelete (id : string)
| PlaylistsUpdate (body : update_body).

(** The calls made so far, oldest first. *)
Abbreviation log := (list call).

(** The remote: what [execute()] answers to a call, given the calls that
    were made before it.  [inl e] is [execute()] raising [e]. *)
Record Remote := {
  search_list : log -> string -> string -> Z -> option string ->
                exn + search_response;
  playlists_insert : log -> string -> string -> string ->
                     exn + playlist_resource;
  playlistItems_insert : log -> string -> string -> exn + unit;
  playlists_list_id : log -> string -> string -> exn + playlists_response;
  playlists_list_mine : log -> Z -> exn + playlists_response;
  playlistItems_list : log -> string -> Z -> option string ->
                       exn + items_response;
  playlists_delete : log -> string -> exn + unit;
  playlists_update : log -> update_body -> exn + playlist_resource }.

(** ** The monad of the client: a log of remote calls and an outcome *)

Definition M (A : Type) : Type := log -> outcome A * log.

Definition ret {A} (a : A) : M A := fun l => (Ret a, l).

Definition raise {A} (e : exn) : M A := fun l => (Raise e, l).

Definition bind {A B} (m : M A) (k : A -> M B) : M B :=
  fun l =>
    match m l with
    | (Ret a, l') => k a l'
    | (Raise e, l') => (Raise e, l')
    | (OutOfFuel, l') => (OutOfFuel, l')
    end.

(** [try: m except Exception as e: h(e)]. *)
Definition try_except {A} (m : M A) (h : exn -> M A) : M A :=
  fun l =>
    match m l with
    | (Raise e, l') => h e l'
    | r => r
    end.

(** One remote call: log it, then return or raise what the remote says. *)
Definition execute {A} (c : call) (answer : log -> exn + A) : M A :=
  fun l =>
    match answer l with
    | inl e => (Raise e, l ++ [c])
    | inr a => (Ret a, l ++ [c])
    end.

Declare Scope py_scope.
Delimit Scope py_scope with py.
Notation "x <- m ;; k" := (bind m (fun x => k))
  (at level 100, m at next level, right associativity) : py_scope.
Notation "m ;;; k" := (bind m (fun _ => k))
  (at level 100, right associativity) : py_scope.
Local Open Scope py_scope.

Definition out_of_fuel {A} : M A := fun l => (OutOfFuel, l).

(** [d[key]] on a dict whose key may be absent: [KeyError(key)], whose
    [str()] is the key in quotes. *)
Definition getitem {A} (key : string) (o : option A) : M A :=
  match o with
  | Some v => ret v
  | None => raise (Exn KeyError ("'" +:+ key +:+ "'"))
  end.

(** ** [src/ytmusic_client.py], class [YouTubeMusicClient] *)

(** *** Result shapes *)

Record artist := Artist { a_name : option string; a_id : option string }.

(** One element of the list [search_tracks] returns. *)
Record track := Track {
  t_videoId : option string;
  t_title : option string;
  t_artists : list artist;
  t_description : string;
  t_thumbnails : jval;
  t_publishedAt : option string }.

Record create_result := CreateResult {
  cr_playlistId : string;
  cr_title : string;
  cr_status : string;
  cr_url : string }.

Record add_result := AddResult {
  ar_status : string;
  ar_playlistId : string;
  ar_addedCount : nat;
  ar_requestedCount : nat }.

(** One element of ["tracks"] in the result of [get_playlist]. *)
Record playlist_track := PlaylistTrack {
  pt_title : option string;
  pt_videoId : option string;
  pt_artists : list string;
  pt_position : option Z }.

Record playlist := Playlist {
  pl_id : string;
  pl_title : option jval;
  pl_description : option jval;
  pl_trackCount : Z;
  pl_tracks : list playlist_track }.

Record delete_result := DeleteResult {
  dr_status : string;
  dr_playlistId : string }.

Record update_result := UpdateResult {
  ur_status : string;
  ur_playlistId : string;
  ur_title : jval;
  ur_description : jval }.

Record library_playlist := LibraryPlaylist {
  lp_playlistId : option string;
  lp_title : option jval;
  lp_description : jval;
  lp_count : Z }.

(** One element of ["addedTracks"]. *)
Record added_track := AddedTrack {
  at_query : string;
  at_matched : option string;
  at_artists : list (option string);
  at_videoId : string }.

Record batch_result := BatchResult {
  br_status : string;
  br_addedCount : nat;
  br_addedTracks : list added_track;
  br_failedQueries : list string }.

(** *** [search_tracks] *)

Definition type_map : gmap string string :=
  <["songs" := "video"]> (<["videos" := "video"]>
    (<["playlists" := "playlist"]> ∅)).

(** The query sent to the remote: lines 46-48. *)
Definition search_query_of (query filter : string) : string :=
  if (String.eqb filter "songs"
      && negb (Py.contains "music" (Py.lower query)))%bool
  then query +:+ " music"
  else query.

(** The body of the [for item in response.get("items", [])] loop. *)
Definition search_result (search_type : string) (item : search_item) : track :=
  let snippet := si_snippet item in
  let id := si_id item in
  let video_id :=
    if String.eqb search_type "video"
    then id ≫= id_videoId
    else id ≫= id_playlistId in
  {| t_videoId := video_id;
     t_title := snippet ≫= ss_title;
     t_artists := [ {| a_name := snippet ≫= ss_channelTitle;
                       a_id := snippet ≫= ss_channelId |} ];
     t_description := Py.take 200 (default "" (snippet ≫= ss_description));
     t_thumbnails := default (JRaw "{}" false) (snippet ≫= ss_thumbnails);
     t_publishedAt := snippet ≫= ss_publishedAt |}.

Definition search_tracks (R : Remote) (query : string) (limit : Z)
    (filter : string) : M (list track) :=
  try_except
    (let search_type := default "video" (type_map !! filter) in
     let search_query := search_query_of query filter in
     let maxResults := Z.min limit 50 in
     let videoCategoryId :=
       if String.eqb filter "songs" then Some "10" else None in
     response <-
       execute (SearchList search_query search_type maxResults videoCategoryId)
         (fun l => search_list R l search_query search_type maxResults
                     videoCategoryId);;
     ret (map (search_result search_type) (default [] (sr_items response))))
    (fun e => raise (Exn RuntimeError ("Search failed: " +:+ exn_str e))).

(** *** [_add_video_to_playlist], [create_playlist], [add_playlist_items] *)

Definition _add_video_to_playlist (R : Remote) (playlist_id video_id : string)
    : M unit :=
  execute (PlaylistItemsInsert playlist_id video_id)
    (fun l => playlistItems_insert R l playlist_id video_id).

(** [for video_id in video_ids: await self._add_video_to_playlist(...)]. *)
Fixpoint add_each (R : Remote) (playlist_id : string) (video_ids : list string)
    : M unit :=
  match video_ids with
  | [] => ret tt
  | video_id :: rest =>
      _add_video_to_playlist R playlist_id video_id;;;
      add_each R playlist_id rest
  end.

Definition create_playlist (R : Remote) (title description privacy_status : string)
    (video_ids : option (list string)) : M create_result :=
  try_except
    (let privacy := Py.lower privacy_status in
     response <-
       execute (PlaylistsInsert title description privacy)
         (fun l => playlists_insert R l title description privacy);;
     playlist_id <- getitem "id" (pr_id response);;
     (if Py.truthy_list (default [] video_ids)
      then add_each R playlist_id (default [] video_ids)
      else ret tt);;;
     ret {| cr_playlistId := playlist_id;
            cr_title := title;
            cr_status := "created";
            cr_url := "https://www.youtube.com/playlist?list=" +:+ playlist_id |})
    (fun e => raise (Exn RuntimeError ("Failed to create playlist: " +:+ exn_str e))).

(** The [for] loop of [add_playlist_items], lines 166-171: the inner
    [try] swallows the failure of one item. *)
Fixpoint add_items_loop (R : Remote) (playlist_id : string)
    (video_ids : list string) (added : nat) : M nat :=
  match video_ids with
  | [] => ret added
  | video_id :: rest =>
      added' <-
        try_except
          (_add_video_to_playlist R playlist_id video_id;;;
           ret (added + 1)%nat)
          (fun _ => ret added);;
      add_items_loop R playlist_id rest added'
  end.

Definition add_playlist_items (R : Remote) (playlist_id : string)
    (video_ids : list string) : M add_result :=
  try_except
    (added <- add_items_loop R playlist_id video_ids 0%nat;;
     ret {| ar_status := "success";
            ar_playlistId := playlist_id;
            ar_addedCount := added;
            ar_requestedCount := length video_ids |})
    (fun e => raise (Exn RuntimeError ("Failed to add tracks: " +:+ exn_str e))).

(** *** [get_playlist] *)

(** [limit and len(tracks) >= limit], lines 227 and 231. *)
Definition limit_reached (limit : option Z) (tracks : list playlist_track) : bool :=
  match limit with
  | None => false
  | Some n => negb (n =? 0) && (n <=? Z.of_nat (length tracks))
  end.

(** The dict appended for one playlist item, lines 217-224. *)
Definition playlist_track_of (item : playlist_item) : playlist_track :=
  let item_snippet := pi_snippet item in
  let resource_id := item_snippet ≫= is_resourceId in
  {| pt_title := item_snippet ≫= is_title;
     pt_videoId := resource_id ≫= rid_videoId;
     pt_artists := [ default "" (item_snippet ≫= is_videoOwnerChannelTitle) ];
     pt_position := item_snippet ≫= is_position |}.

(** The inner [for item in items_response.get("items", [])] loop with its
    [break], lines 216-228. *)
Fixpoint collect_items (limit : option Z) (items : list playlist_item)
    (tracks : list playlist_track) : list playlist_track :=
  match items with
  | [] => tracks
  | item :: rest =>
      let tracks' := tracks ++ [playlist_track_of item] in
      if limit_reached limit tracks' then tracks'
      else collect_items limit rest tracks'
  end.

(** The [while True] loop, lines 207-232; one unit of fuel per page. *)
Fixpoint fetch_pages (fuel : nat) (R : Remote) (playlist_id : string)
    (limit : option Z) (next_page_token : option string)
    (tracks : list playlist_track) : M (list playlist_track) :=
  match fuel with
  | O => out_of_fuel
  | S fuel' =>
      items_response <-
        execute (PlaylistItemsList playlist_id 50 next_page_token)
          (fun l => playlistItems_list R l playlist_id 50 next_page_token);;
      let tracks' :=
        collect_items limit (default [] (ir_items items_response)) tracks in
      let next_page_token' := ir_nextPageToken items_response in
      if (negb (Py.truthy_str next_page_token') || limit_reached limit tracks')%bool
      then ret tracks'
      else fetch_pages fuel' R playlist_id limit next_page_token' tracks'
  end.

Definition get_playlist (fuel : nat) (R : Remote) (playlist_id : string)
    (limit : option Z) : M playlist :=
  try_except
    (playlist_response <-
       execute (PlaylistsListId "snippet,contentDetails" playlist_id)
         (fun l => playlists_list_id R l "snippet,contentDetails" playlist_id);;
     match default [] (plr_items playlist_response) with
     | [] => raise (Exn RuntimeError ("Playlist not found: " +:+ playlist_id))
     | playlist_info :: _ =>
         let snippet := default ∅ (pr_snippet playlist_info) in
         let total_tracks :=
           default 0 (pr_contentDetails playlist_info ≫= cd_itemCount) in
         tracks <- fetch_pages fuel R playlist_id limit None [];;
         ret {| pl_id := playlist_id;
                pl_title := snippet !! "title";
                pl_description := snippet !! "description";
                pl_trackCount := total_tracks;
                pl_tracks := tracks |}
     end)
    (fun e => raise (Exn RuntimeError ("Failed to retrieve playlist: " +:+ exn_str e))).

(** *** [delete_playlist] *)

Definition delete_playlist (R : Remote) (playlist_id : string) : M delete_result :=
  try_except
    (execute (PlaylistsDelete playlist_id)
       (fun l => playlists_delete R l playlist_id);;;
     ret {| dr_status := "deleted"; dr_playlistId := playlist_id |})
    (fun e => raise (Exn RuntimeError ("Failed to delete playlist: " +:+ exn_str e))).

(** *** [update_playlist] *)

(** Lines 272-276: the two writes into the snippet dict. *)
Definition overlay (title description : option string) (snippet : snippet_dict)
    : snippet_dict :=
  let snippet1 :=
    if Py.truthy_str title
    then <["title" := JStr (default "" title)]> snippet
    else snippet in
  match description with
  | Some d => <["description" := JStr d]> snippet1
  | None => snippet1
  end.

Definition update_playlist (R : Remote) (playlist_id : string)
    (title description : option string) : M update_result :=
  try_except
    (current <-
       execute (PlaylistsListId "snippet,status" playlist_id)
         (fun l => playlists_list_id R l "snippet,status" playlist_id);;
     match default [] (plr_items current) with
     | [] => raise (Exn RuntimeError ("Playlist not found: " +:+ playlist_id))
     | playlist :: _ =>
         snippet <- getitem "snippet" (pr_snippet playlist);;
         let body :=
           {| ub_id := playlist_id;
              ub_snippet := overlay title description snippet;
              ub_status := default (JRaw "{}" false) (pr_status playlist) |} in
         result <-
           execute (PlaylistsUpdate body) (fun l => playlists_update R l body);;
         result_snippet <- getitem "snippet" (pr_snippet result);;
         result_title <- getitem "title" (result_snippet !! "title");;
         result_description <-
           getitem "description" (result_snippet !! "description");;
         ret {| ur_status := "updated";
                ur_playlistId := playlist_id;
                ur_title := result_title;
                ur_description := result_description |}
     end)
    (fun e => raise (Exn RuntimeError ("Failed to update playlist: " +:+ exn_str e))).

(** *** [get_library_playlists] *)

Definition library_playlist_of (item : playlist_resource) : library_playlist :=
  let snippet := default ∅ (pr_snippet item) in
  {| lp_playlistId := pr_id item;
     lp_title := snippet !! "title";
     lp_description := default (JStr "") (snippet !! "description");
     lp_count := default 0 (pr_contentDetails item ≫= cd_itemCount) |}.

Definition get_library_playlists (R : Remote) (limit : Z)
    : M (list library_playlist) :=
  try_except
    (let maxResults := Z.min limit 50 in
     response <-
       execute (PlaylistsListMine maxResults)
         (fun l => playlists_list_mine R l maxResults);;
     ret (map library_playlist_of (default [] (plr_items response))))
    (fun e => raise (Exn RuntimeError ("Failed to get library playlists: " +:+ exn_str e))).

(** *** [search_and_add_to_playlist] *)

(** The three lists the loop appends to. *)
Record batch_acc := BatchAcc {
  video_ids : list string;
  added_tracks : list added_track;
  failed_queries : list string }.

(** The body of the [try] for one query, lines 344-355.  The results of
    [search_tracks] always carry the keys read here, so nothing raises
    between the two appends. *)
Definition search_one (R : Remote) (query : string) (acc : batch_acc)
    : M batch_acc :=
  results <- search_tracks R query 1 "songs";;
  match results with
  | r0 :: _ =>
      if Py.truthy_str (t_videoId r0) then
        let video_id := default "" (t_videoId r0) in
        ret {| video_ids := video_ids acc ++ [video_id];
               added_tracks := added_tracks acc ++
                 [ {| at_query := query;
                      at_matched := t_title r0;
                      at_artists := map a_name (t_artists r0);
                      at_videoId := video_id |} ];
               failed_queries := failed_queries acc |}
      else
        ret {| video_ids := video_ids acc;
               added_tracks := added_tracks acc;
               failed_queries := failed_queries acc ++ [query] |}
  | [] =>
      ret {| video_ids := video_ids acc;
             added_tracks := added_tracks acc;
             failed_queries := failed_queries acc ++ [query] |}
  end.

(** The [for query in search_queries] loop, lines 342-358. *)
Fixpoint search_loop (R : Remote) (search_queries : list string)
    (acc : batch_acc) : M batch_acc :=
  match search_queries with
  | [] => ret acc
  | query :: rest =>
      acc' <-
        try_except (search_one R query acc)
          (fun _ =>
             ret {| video_ids := video_ids acc;
                    added_tracks := added_tracks acc;
                    failed_queries := failed_queries acc ++ [query] |});;
      search_loop R rest acc'
  end.

Definition search_and_add_to_playlist (R : Remote) (playlist_id : string)
    (search_queries : list string) : M batch_result :=
  acc <- search_loop R search_queries
           {| video_ids := []; added_tracks := []; failed_queries := [] |};;
  (if Py.truthy_list (video_ids acc)
   then add_playlist_items R playlist_id (video_ids acc);;; ret tt
   else ret tt);;;
  ret {| br_status := "completed";
         br_addedCount := length (video_ids acc);
         br_addedTracks := added_tracks acc;
         br_failedQueries := failed_queries acc |}.

(** ** The tool dispatchers *)

(** The [arguments] dict of a tool call.  Every property has the type its
    [inputSchema] declares; a key may be absent. *)
Record arguments := Arguments {
  arg_query : option string;
  arg_limit : option Z;
  arg_filter : option string;
  arg_title : option string;
  arg_description : option string;
  arg_privacy_status : option string;
  arg_video_ids : option (list string);
  arg_playlist_id : option string;
  arg_search_queries : option (list string);
  arg_queries : option (list string) }.

Record TextContent := { tc_type : string; tc_text : string }.

Definition text (s : string) : list TextContent :=
  [ {| tc_type := "text"; tc_text := s |} ].

(** [sep.join(l)] where an element may be [None]: [str.join] raises
    [TypeError] at the first one. *)
Fixpoint check_strs (i : nat) (l : list (option string)) : M (list string) :=
  match l with
  | [] => ret []
  | Some s :: l' => l'' <- check_strs (S i) l';; ret (s :: l'')
  | None :: _ =>
      raise (Exn TypeError
               ("sequence item " +:+ Py.str_int (Z.of_nat i)
                +:+ ": expected str instance, NoneType found"))
  end.

Definition join_opt (sep : string) (l : list (option string)) : M string :=
  l' <- check_strs 0 l;; ret (Py.join sep l').

(** [for x in l: lines.append(f x)] where [f] may raise. *)
Fixpoint lines_of {A} (f : A -> M string) (l : list A) : M (list string) :=
  match l with
  | [] => ret []
  | x :: l' => s <- f x;; rest <- lines_of f l';; ret (s :: rest)
  end.

(** *** [src/server.py] *)
Module Server.

(** Lines 200-207.  The results of [search_tracks] have no ["album"] and
    no ["duration"] key, so both suffixes are empty. *)
Definition search_line (r : track) : M string :=
  artists <-
    (if Py.truthy_list (t_artists r)
     then join_opt ", " (map a_name (t_artists r))
     else ret "Unknown Artist");;
  let album_info := "" in
  let duration_info := "" in
  ret ("- " +:+ Py.str_opt (t_title r) +:+ " - " +:+ artists
       +:+ album_info +:+ duration_info +:+ Py.nl
       +:+ "  videoId: " +:+ Py.str_opt (t_videoId r)).

Definition added_line (t : added_track) : M string :=
  artists <- join_opt ", " (at_artists t);;
  ret ("  " +:+ at_query t +:+ " -> " +:+ Py.str_opt (at_matched t)
       +:+ " by " +:+ artists).

Definition track_line (t : playlist_track) : M string :=
  let artists := Py.join ", " (pt_artists t) in
  ret ("  - " +:+ Py.str_opt (pt_title t) +:+ " - " +:+ artists).

Definition library_line (p : library_playlist) : M string :=
  let count_info :=
    if negb (lp_count p =? 0)
    then " (" +:+ Py.str_int (lp_count p) +:+ " tracks)"
    else "" in
  ret ("  - " +:+ str_jval (lp_title p) +:+ count_info +:+ Py.nl
       +:+ "    playlistId: " +:+ Py.str_opt (lp_playlistId p)).

(** The body of the [try], lines 189-290. *)
Definition call_tool_body (fuel : nat) (R : Remote) (name : string)
    (args : arguments) : M (list TextContent) :=
  if String.eqb name "search_youtube_music" then
    query <- getitem "query" (arg_query args);;
    results <- search_tracks R query (default 20 (arg_limit args))
                 (default "songs" (arg_filter args));;
    if negb (Py.truthy_list results) then ret (text "No results found.")
    else
      output_lines <- lines_of search_line results;;
      ret (text (Py.join Py.nl
             (("Found " +:+ Py.str_int (Z.of_nat (length results))
               +:+ " results:" +:+ Py.nl) :: output_lines)))
  else if String.eqb name "create_youtube_music_playlist" then
    title <- getitem "title" (arg_title args);;
    result <- create_playlist R title
                (default "" (arg_description args))
                (default "PRIVATE" (arg_privacy_status args))
                (Some (default [] (arg_video_ids args)));;
    ret (text ("Created playlist: " +:+ cr_title result +:+ Py.nl
               +:+ "Playlist ID: " +:+ cr_playlistId result +:+ Py.nl
               +:+ "URL: " +:+ cr_url result))
  else if String.eqb name "add_tracks_to_playlist" then
    playlist_id <- getitem "playlist_id" (arg_playlist_id args);;
    video_ids <- getitem "video_ids" (arg_video_ids args);;
    result <- add_playlist_items R playlist_id video_ids;;
    ret (text ("Successfully added "
               +:+ Py.str_int (Z.of_nat (ar_addedCount result))
               +:+ " tracks to playlist " +:+ ar_playlistId result))
  else if String.eqb name "search_and_add_to_playlist" then
    playlist_id <- getitem "playlist_id" (arg_playlist_id args);;
    search_queries <- getitem "search_queries" (arg_search_queries args);;
    result <- search_and_add_to_playlist R playlist_id search_queries;;
    response_lines <- lines_of added_line (br_addedTracks result);;
    let failed :=
      if Py.truthy_list (br_failedQueries result)
      then [ Py.nl +:+ "Failed to find: "
             +:+ Py.join ", " (br_failedQueries result) ]
      else [] in
    ret (text (Py.join Py.nl
           ((("Added " +:+ Py.str_int (Z.of_nat (br_addedCount result))
              +:+ " tracks to playlist:" +:+ Py.nl) :: response_lines)
            ++ failed)))
  else if String.eqb name "get_playlist_details" then
    playlist_id <- getitem "playlist_id" (arg_playlist_id args);;
    result <- get_playlist fuel R playlist_id None;;
    let description :=
      if truthy_jval (pl_description result)
      then str_jval (pl_description result)
      else "No description" in
    output_lines <- lines_of track_line (pl_tracks result);;
    ret (text (Py.join Py.nl
           ([ "Playlist: " +:+ str_jval (pl_title result);
              "Description: " +:+ description;
              "Track Count: " +:+ Py.str_int (pl_trackCount result);
              "";
              "Tracks:" ] ++ output_lines)))
  else if String.eqb name "get_library_playlists" then
    result <- get_library_playlists R (default 25 (arg_limit args));;
    if negb (Py.truthy_list result)
    then ret (text "No playlists found in your library.")
    else
      output_lines <- lines_of library_line result;;
      ret (text (Py.join Py.nl
             (("Found " +:+ Py.str_int (Z.of_nat (length result))
               +:+ " playlists:" +:+ Py.nl) :: output_lines)))
  else
    raise (Exn ValueError ("Unknown tool: " +:+ name)).

(** [call_tool] of [src/server.py]: the [try] and its
    [except Exception], lines 188-294. *)
Definition call_tool (fuel : nat) (R : Remote) (name : string)
    (args : arguments) : M (list TextContent) :=
  try_except (call_tool_body fuel R name args)
    (fun e => ret (text ("Error: " +:+ exn_str e))).

End Server.

(** *** [src/server_remote.py] *)
Module ServerRemote.

(** [r["artists"][0]["name"] if r["artists"] else "Unknown"]. *)
Definition first_artist (artists : list artist) : string :=
  match artists with
  | a :: _ => Py.str_opt (a_name a)
  | [] => "Unknown"
  end.

Definition search_line (r : track) : string :=
  "- " +:+ Py.str_opt (t_title r) +:+ " by " +:+ first_artist (t_artists r)
  +:+ Py.nl +:+ "  videoId: " +:+ Py.str_opt (t_videoId r).

Definition library_line (p : library_playlist) : string :=
  "- " +:+ str_jval (lp_title p) +:+ " (" +:+ Py.str_int (lp_count p)
  +:+ " tracks)" +:+ Py.nl +:+ "  ID: " +:+ Py.str_opt (lp_playlistId p).

(** The check mark and the arrow of line 244, as UTF-8. *)
Definition check_mark : string :=
  String (ascii_of_nat 226) (String (ascii_of_nat 156)
    (String (ascii_of_nat 147) EmptyString)).
Definition arrow : string :=
  String (ascii_of_nat 226) (String (ascii_of_nat 134)
    (String (ascii_of_nat 146) EmptyString)).

Definition added_line (t : added_track) : string :=
  "  " +:+ check_mark +:+ " " +:+ at_query t +:+ " " +:+ arrow +:+ " "
  +:+ Py.str_opt (at_matched t).

Definition track_line (t : playlist_track) : string :=
  let artist :=
    match pt_artists t with
    | a :: _ => a
    | [] => "Unknown"
    end in
  "  - " +:+ Py.str_opt (pt_title t) +:+ " - " +:+ artist.

(** The body of the [try], lines 190-270. *)
Definition call_tool_body (fuel : nat) (R : Remote) (name : string)
    (args : arguments) : M (list TextContent) :=
  if String.eqb name "search_youtube_music" then
    query <- getitem "query" (arg_query args);;
    results <- search_tracks R query (default 20 (arg_limit args)) "songs";;
    if negb (Py.truthy_list results) then ret (text "No results found.")
    else
      ret (text (Py.join Py.nl
             (("Found " +:+ Py.str_int (Z.of_nat (length results))
               +:+ " results:" +:+ Py.nl) :: map search_line results)))
  else if String.eqb name "create_playlist" then
    title <- getitem "title" (arg_title args);;
    result <- create_playlist R title
                (default "" (arg_description args))
                (default "private" (arg_privacy_status args))
                None;;
    ret (text ("Created: " +:+ cr_title result +:+ Py.nl
               +:+ "ID: " +:+ cr_playlistId result +:+ Py.nl
               +:+ "URL: " +:+ cr_url result))
  else if String.eqb name "add_to_playlist" then
    playlist_id <- getitem "playlist_id" (arg_playlist_id args);;
    video_ids <- getitem "video_ids" (arg_video_ids args);;
    result <- add_playlist_items R playlist_id video_ids;;
    ret (text ("Added " +:+ Py.str_int (Z.of_nat (ar_addedCount result))
               +:+ " tracks to playlist"))
  else if String.eqb name "get_my_playlists" then
    playlists <- get_library_playlists R (default 25 (arg_limit args));;
    if negb (Py.truthy_list playlists)
    then ret (text "No playlists found.")
    else
      ret (text (Py.join Py.nl
             (("Your playlists (" +:+ Py.str_int (Z.of_nat (length playlists))
               +:+ "):" +:+ Py.nl) :: map library_line playlists)))
  else if String.eqb name "search_and_add" then
    playlist_id <- getitem "playlist_id" (arg_playlist_id args);;
    queries <- getitem "queries" (arg_queries args);;
    result <- search_and_add_to_playlist R playlist_id queries;;
    let failed :=
      if Py.truthy_list (br_failedQueries result)
      then [ Py.nl +:+ "Failed: " +:+ Py.join ", " (br_failedQueries result) ]
      else [] in
    ret (text (Py.join Py.nl
           ((("Added " +:+ Py.str_int (Z.of_nat (br_addedCount result))
              +:+ " tracks:" +:+ Py.nl)
             :: map added_line (br_addedTracks result)) ++ failed)))
  else if String.eqb name "get_playlist_details" then
    playlist_id <- getitem "playlist_id" (arg_playlist_id args);;
    result <- get_playlist fuel R playlist_id None;;
    let description :=
      if truthy_jval (pl_description result)
      then str_jval (pl_description result)
      else "No description" in
    ret (text (Py.join Py.nl
           ([ "Playlist: " +:+ str_jval (pl_title result);
              "Description: " +:+ description;
              "Tracks (" +:+ Py.str_int (pl_trackCount result) +:+ "):"
                +:+ Py.nl ] ++ map track_line (pl_tracks result))))
  else if String.eqb name "delete_playlist" then
    playlist_id <- getitem "playlist_id" (arg_playlist_id args);;
    result <- delete_playlist R playlist_id;;
    ret (text ("Deleted playlist: " +:+ dr_playlistId result))
  else
    ret (text ("Unknown tool: " +:+ name)).

(** [call_tool] of [src/server_remote.py]: the [try] and its
    [except Exception], lines 189-274. *)
Definition call_tool (fuel : nat) (R : Remote) (name : string)
    (args : arguments) : M (list TextContent) :=
  try_except (call_tool_body fuel R name args)
    (fun e => ret (text ("Error: " +:+ exn_str e))).

End ServerRemote.

(** ** Reading a run off the remote *)

(** These definitions say what the remote does along a run; the
    properties below compare the client with them. *)

(** How many of the per-item insert calls for [video_ids], issued in order
    from log [l], the remote accepts. *)
Fixpoint successes (R : Remote) (playlist_id : string) (l : log)
    (video_ids : list string) : nat :=
  match video_ids with
  | [] => 0%nat
  | video_id :: rest =>
      (match playlistItems_insert R l playlist_id video_id with
       | inl _ => 0
       | inr _ => 1
       end
       + successes R playlist_id (l ++ [PlaylistItemsInsert playlist_id video_id])
           rest)%nat
  end.

(** The elements of [xs] at the positions where [mask] holds, in order. *)
Fixpoint select {A} (mask : list bool) (xs : list A) : list A :=
  match mask, xs with
  | b :: mask', x :: xs' =>
      if b then x :: select mask' xs' else select mask' xs'
  | _, _ => []
  end.

(** Whether the search for [query], issued at log [l], returns a top
    result with a usable identifier. *)
Definition resolves (R : Remote) (l : log) (query : string) : bool :=
  match fst (search_tracks R query 1 "songs" l) with
  | Ret (r0 :: _) => Py.truthy_str (t_videoId r0)
  | _ => false
  end.

(** The outcome of each search of a batch, in input order. *)
Fixpoint outcomes (R : Remote) (l : log) (queries : list string) : list bool :=
  match queries with
  | [] => []
  | query :: rest =>
      resolves R l query
      :: outcomes R (snd (search_tracks R query 1 "songs" l)) rest
  end.

(** The call that the search for [query] makes in a batch. *)
Definition search_call (query : string) : call :=
  SearchList (search_query_of query "songs") "video" 1 (Some "10").

(** The three lists before the first query. *)
Definition empty_acc : batch_acc :=
  {| video_ids := []; added_tracks := []; failed_queries := [] |}.

(** The lists after a query that failed, and after one that resolved to
    the summary record [t]. *)
Definition with_failed (acc : batch_acc) (query : string) : batch_acc :=
  {| video_ids := video_ids acc;
     added_tracks := added_tracks acc;
     failed_queries := failed_queries acc ++ [query] |}.

Definition with_added (acc : batch_acc) (t : added_track) : batch_acc :=
  {| video_ids := video_ids acc ++ [at_videoId t];
     added_tracks := added_tracks acc ++ [t];
     failed_queries := failed_queries acc |}.

(** The call of [get_playlist] that reads the playlist's metadata. *)
Definition metadata_call (playlist_id : string) : call :=
  PlaylistsListId "snippet,contentDetails" playlist_id.

(** The remote serves [pages] one after the other from log [l] when asked
    with the continuation token of the page before, [token] for the
    first; every page but the last carries a usable token.  Nothing is
    said on the token of the last page. *)
Fixpoint serves (R : Remote) (playlist_id : string) (l : log)
    (token : option string) (pages : list items_response) : Prop :=
  match pages with
  | [] => True
  | page :: rest =>
      playlistItems_list R l playlist_id 50 token = inr page
      /\ match rest with
         | [] => True
         | _ :: _ =>
             Py.truthy_str (ir_nextPageToken page) = true
             /\ serves R playlist_id
                  (l ++ [PlaylistItemsList playlist_id 50 token])
                  (ir_nextPageToken page) rest
         end
  end.

(** The pagination of the remote comes to an end within [n] further
    requests after the one issued at log [l] with [token]: some request
    fails, or some page carries no usable continuation token.  This
    says nothing of the client; it bounds what the remote hands out. *)
Fixpoint pagination_ends (n : nat) (R : Remote) (playlist_id : string) (l : log)
    (token : option string) : Prop :=
  match playlistItems_list R l playlist_id 50 token with
  | inl _ => True
  | inr page =>
      if Py.truthy_str (ir_nextPageToken page)
      then match n with
           | O => False
           | S n' =>
               pagination_ends n' R playlist_id
                 (l ++ [PlaylistItemsList playlist_id 50 token])
                 (ir_nextPageToken page)
           end
      else True
  end.

(** The page requests that walk [pages]. *)
Fixpoint page_calls (playlist_id : string) (token : option string)
    (pages : list items_response) : list call :=
  match pages with
  | [] => []
  | page :: rest =>
      PlaylistItemsList playlist_id 50 token
      :: page_calls playlist_id (ir_nextPageToken page) rest
  end.

Definition page_items (page : items_response) : list playlist_item :=
  default [] (ir_items page).

(** The normalized tracks of [pages], in response order. *)
Definition all_tracks (pages : list items_response) : list playlist_track :=
  map playlist_track_of (concat (map page_items pages)).

(** The sum of the per-page item counts. *)
Definition item_count (pages : list items_response) : nat :=
  list_sum (map (fun page => length (page_items page)) pages).

(** The token of the last page of [pages]. *)
Fixpoint last_token (pages : list items_response) : option string :=
  match pages with
  | [] => None
  | [page] => ir_nextPageToken page
  | _ :: rest => last_token rest
  end.

(** The client operations that report failure by raising, and the text
    each puts in front of the message of the failure it wraps. *)
Inductive operation :=
| OpSearch (query : string) (limit : Z) (filter : string)
| OpCreate (title description privacy_status : string)
    (video_ids : option (list string))
| OpAddItems (playlist_id : string) (video_ids : list string)
| OpGet (fuel : nat) (playlist_id : string) (limit : option Z)
| OpUpdate (playlist_id : string) (title description : option string)
| OpDelete (playlist_id : string)
| OpLibrary (limit : Z).

Definition error_prefix (op : operation) : string :=
  match op with
  | OpSearch _ _ _ => "Search failed: "
  | OpCreate _ _ _ _ => "Failed to create playlist: "
  | OpAddItems _ _ => "Failed to add tracks: "
  | OpGet _ _ _ => "Failed to retrieve playlist: "
  | OpUpdate _ _ _ => "Failed to update playlist: "
  | OpDelete _ => "Failed to delete playlist: "
  | OpLibrary _ => "Failed to get library playlists: "
  end.

(** The exception with which [op] ends when run from log [l], if any. *)
Definition failure (R : Remote) (op : operation) (l : log) : option exn :=
  match op with
  | OpSearch q n f => raised (fst (search_tracks R q n f l))
  | OpCreate t d p v => raised (fst (create_playlist R t d p v l))
  | OpAddItems p v => raised (fst (add_playlist_items R p v l))
  | OpGet fuel p n => raised (fst (get_playlist fuel R p n l))
  | OpUpdate p t d => raised (fst (update_playlist R p t d l))
  | OpDelete p => raised (fst (delete_playlist R p l))
  | OpLibrary n => raised (fst (get_library_playlists R n l))
  end.

(** The raising client operation that a tool call of [src/server.py]
    runs, when its required arguments are present.  (The batch tool runs
    [search_and_add_to_playlist], which never raises.) *)
Definition local_tool_operation (fuel : nat) (name : string) (args : arguments)
    : option operation :=
  if String.eqb name "search_youtube_music" then
    query ← arg_query args;
    Some (OpSearch query (default 20 (arg_limit args))
            (default "songs" (arg_filter args)))
  else if String.eqb name "create_youtube_music_playlist" then
    title ← arg_title args;
    Some (OpCreate title (default "" (arg_description args))
            (default "PRIVATE" (arg_privacy_status args))
            (Some (default [] (arg_video_ids args))))
  else if String.eqb name "add_tracks_to_playlist" then
    playlist_id ← arg_playlist_id args;
    video_ids ← arg_video_ids args;
    Some (OpAddItems playlist_id video_ids)
  else if String.eqb name "search_and_add_to_playlist" then None
  else if String.eqb name "get_playlist_details" then
    playlist_id ← arg_playlist_id args;
    Some (OpGet fuel playlist_id None)
  else if String.eqb name "get_library_playlists" then
    Some (OpLibrary (default 25 (arg_limit args)))
  else None.

(** The same for [src/server_remote.py]. *)
Definition remote_tool_operation (fuel : nat) (name : string) (args : arguments)
    : option operation :=
  if String.eqb name "search_youtube_music" then
    query ← arg_query args;
    Some (OpSearch query (default 20 (arg_limit args)) "songs")
  else if String.eqb name "create_playlist" then
    title ← arg_title args;
    Some (OpCreate title (default "" (arg_description args))
            (default "private" (arg_privacy_status args)) None)
  else if String.eqb name "add_to_playlist" then
    playlist_id ← arg_playlist_id args;
    video_ids ← arg_video_ids args;
    Some (OpAddItems playlist_id video_ids)
  else if String.eqb name "get_my_playlists" then
    Some (OpLibrary (default 25 (arg_limit args)))
  else if String.eqb name "search_and_add" then None
  else if String.eqb name "get_playlist_details" then
    playlist_id ← arg_playlist_id args;
    Some (OpGet fuel playlist_id None)
  else if String.eqb name "delete_playlist" then
    playlist_id ← arg_playlist_id args;
    Some (OpDelete playlist_id)
  else None.

(** A computation that cannot be cut by fuel. *)
Definition terminates {A} (m : M A) : Prop :=
  forall l, fst (m l) <> OutOfFuel.

(** ** Concrete remotes *)

Module Scenario.

Definition http_error : exn := Exn HttpError "quotaExceeded".

(** A remote on which every call fails. *)
Definition down : Remote :=
  {| search_list := fun _ _ _ _ _ => inl http_error;
     playlists_insert := fun _ _ _ _ => inl http_error;
     playlistItems_insert := fun _ _ _ => inl http_error;
     playlists_list_id := fun _ _ _ => inl http_error;
     playlists_list_mine := fun _ _ => inl http_error;
     playlistItems_list := fun _ _ _ _ => inl http_error;
     playlists_delete := fun _ _ => inl http_error;
     playlists_update := fun _ _ => inl http_error |}.

Definition hit (video_id title channel : string) : search_item :=
  {| si_id := Some {| id_videoId := Some video_id; id_playlistId := None |};
     si_snippet := Some
       {| ss_title := Some title;
          ss_channelTitle := Some channel;
          ss_channelId := None;
          ss_description := None;
          ss_thumbnails := None;
          ss_publishedAt := None |} |}.

Definition entry (title video_id : string) (position : Z) : playlist_item :=
  {| pi_snippet := Some
       {| is_title := Some title;
          is_resourceId := Some {| rid_videoId := Some video_id |};
          is_videoOwnerChannelTitle := Some "Neu!";
          is_position := Some position |} |}.

Definition page1 : items_response :=
  {| ir_items := Some [entry "Hallogallo" "v1" 0; entry "Sonderangebot" "v2" 1];
     ir_nextPageToken := Some "t1" |}.
Definition page2 : items_response :=
  {| ir_items := Some [entry "Weissensee" "v3" 2; entry "Im Glueck" "v4" 3];
     ir_nextPageToken := Some "t2" |}.
Definition page3 : items_response :=
  {| ir_items := Some [entry "Negativland" "v5" 4];
     ir_nextPageToken := None |}.

Definition the_snippet : snippet_dict :=
  <["title" := JStr "Neu! 1972"]> (<["description" := JStr "first album"]>
    (<["channelId" := JStr "UC1"]> ∅)).

Definition the_playlist : playlist_resource :=
  {| pr_id := Some "PL1";
     pr_snippet := Some the_snippet;
     pr_status := Some (JRaw "{'privacyStatus': 'private'}" true);
     pr_contentDetails := Some {| cd_itemCount := Some 5 |} |}.

(** A remote that knows one playlist of three pages, finds
    ["Neu! Hallogallo music"], fails the search for ["boom music"], finds
    nothing else, refuses to insert the video ["bad"], refuses to delete
    and echoes an update. *)
Definition service : Remote :=
  {| search_list := fun _ q _ _ _ =>
       if String.eqb q "Neu! Hallogallo music"
       then inr {| sr_items := Some [hit "abc123" "Hallogallo" "Neu!"] |}
       else if String.eqb q "boom music" then inl http_error
       else inr {| sr_items := Some [] |};
     playlists_insert := fun _ _ _ _ =>
       inr {| pr_id := Some "PL2"; pr_snippet := None; pr_status := None;
              pr_contentDetails := None |};
     playlistItems_insert := fun _ _ video_id =>
       if String.eqb video_id "bad" then inl http_error else inr tt;
     playlists_list_id := fun _ _ id =>
       if String.eqb id "PL1"
       then inr {| plr_items := Some [the_playlist] |}
       else inr {| plr_items := Some [] |};
     playlists_list_mine := fun _ _ =>
       inr {| plr_items := Some [the_playlist] |};
     playlistItems_list := fun _ _ _ token =>
       match token with
       | None => inr page1
       | Some t =>
           if String.eqb t "t1" then inr page2
           else if String.eqb t "t2" then inr page3
           else inl http_error
       end;
     playlists_delete := fun _ _ => inl http_error;
     playlists_update := fun _ body =>
       inr {| pr_id := Some (ub_id body);
              pr_snippet := Some (ub_snippet body);
              pr_status := Some (ub_status body);
              pr_contentDetails := None |} |}.

(** A remote whose search succeeds on the first call only. *)
Definition once : Remote :=
  {| search_list := fun l _ _ _ _ =>
       match l with
       | [] => inr {| sr_items := Some [hit "abc123" "Hallogallo" "Neu!"] |}
       | _ :: _ => inr {| sr_items := Some [] |}
       end;
     playlists_insert := playlists_insert service;
     playlistItems_insert := playlistItems_insert service;
     playlists_list_id := playlists_list_id service;
     playlists_list_mine := playlists_list_mine service;
     playlistItems_list := playlistItems_list service;
     playlists_delete := playlists_delete service;
     playlists_update := playlists_update service |}.

Definition no_arguments : arguments :=
  {| arg_query := None; arg_limit := None; arg_filter := None;
     arg_title := None; arg_description := None;
     arg_privacy_status := None; arg_video_ids := None;
     arg_playlist_id := None; arg_search_queries := None;
     arg_queries := None |}.

End Scenario.

(** ** Reading a run off the remote: inserts that stop at a refusal *)

(** The first exception with which the remote refuses one of the insert
    calls for [video_ids], issued in order from log [l] and stopping at
    the first refusal. *)
Fixpoint refusal (R : Remote) (playlist_id : string) (l : log)
    (video_ids : list string) : option exn :=
  match video_ids with
  | [] => None
  | video_id :: rest =>
      match playlistItems_insert R l playlist_id video_id with
      | inl e => Some e
      | inr _ =>
          refusal R playlist_id
            (l ++ [PlaylistItemsInsert playlist_id video_id]) rest
      end
  end.

(** The ids for which an insert call is issued in such a run: all of them
    up to and including the first one that is refused. *)
Fixpoint attempted (R : Remote) (playlist_id : string) (l : log)
    (video_ids : list string) : list string :=
  match video_ids with
  | [] => []
  | video_id :: rest =>
      match playlistItems_insert R l playlist_id video_id with
      | inl _ => [video_id]
      | inr _ =>
          video_id
          :: attempted R playlist_id
               (l ++ [PlaylistItemsInsert playlist_id video_id]) rest
      end
  end.

(** ** More concrete remotes *)

Module Edge.

(** Like [Scenario.service], but the answer to a create call carries no
    id, the answer to an update carries no description, and the page
    after the first cannot be fetched. *)
Definition terse : Remote :=
  {| search_list := search_list Scenario.service;
     playlists_insert := fun _ _ _ _ =>
       inr {| pr_id := None; pr_snippet := None; pr_status := None;
              pr_contentDetails := None |};
     playlistItems_insert := playlistItems_insert Scenario.service;
     playlists_list_id := playlists_list_id Scenario.service;
     playlists_list_mine := playlists_list_mine Scenario.service;
     playlistItems_list := fun _ _ _ token =>
       match token with
       | None => inr Scenario.page1
       | Some _ => inl Scenario.http_error
       end;
     playlists_delete := playlists_delete Scenario.service;
     playlists_update := fun _ body =>
       inr {| pr_id := Some (ub_id body);
              pr_snippet := Some (delete "description" (ub_snippet body));
              pr_status := Some (ub_status body);
              pr_contentDetails := None |} |}.

(** A search hit whose snippet names no channel. *)
Definition anonymous_hit (video_id title : string) : search_item :=
  {| si_id := Some {| id_videoId := Some video_id; id_playlistId := None |};
     si_snippet := Some
       {| ss_title := Some title;
          ss_channelTitle := None;
          ss_channelId := None;
          ss_description := None;
          ss_thumbnails := None;
          ss_publishedAt := None |} |}.

(** Like [Scenario.service], but every search finds one hit without a
    channel. *)
Definition anonymous : Remote :=
  {| search_list := fun _ _ _ _ _ =>
       inr {| sr_items := Some [anonymous_hit "zzz" "Untitled"] |};
     playlists_insert := playlists_insert Scenario.service;
     playlistItems_insert := playlistItems_insert Scenario.service;
     playlists_list_id := playlists_list_id Scenario.service;
     playlists_list_mine := playlists_list_mine Scenario.service;
     playlistItems_list := playlistItems_list Scenario.service;
     playlists_delete := playlists_delete Scenario.service;
     playlists_update := playlists_update Scenario.service |}.

(** Like [Scenario.service], but every insert is refused. *)
Definition refusing : Remote :=
  {| search_list := search_list Scenario.service;
     playlists_insert := playlists_insert Scenario.service;
     playlistItems_insert := fun _ _ _ => inl Scenario.http_error;
     playlists_list_id := playlists_list_id Scenario.service;
     playlists_list_mine := playlists_list_mine Scenario.service;
     playlistItems_list := playlistItems_list Scenario.service;
     playlists_delete := playlists_delete Scenario.service;
     playlists_update := playlists_update Scenario.service |}.

End Edge.

(** ** [list_tools] *)

(** A tool as [list_tools] advertises it: its name, the properties of its
    [inputSchema] with their JSON types, and the required properties.
    (The descriptions, defaults and enumerations of the schema are prose
    and hints for the caller; the dispatcher does not read them.) *)
Record tool := Tool {
  tool_name : string;
  tool_properties : list (string * string);
  tool_required : list string }.

(** [list_tools] of [src/server.py], lines 24-178. *)
Definition local_list_tools : list tool :=
  [ {| tool_name := "search_youtube_music";
       tool_properties :=
         [("query", "string"); ("limit", "integer"); ("filter", "string")];
       tool_required := ["query"] |};
    {| tool_name := "create_youtube_music_playlist";
       tool_properties :=
         [("title", "string"); ("description", "string");
          ("privacy_status", "string"); ("video_ids", "array")];
       tool_required := ["title"] |};
    {| tool_name := "add_tracks_to_playlist";
       tool_properties := [("playlist_id", "string"); ("video_ids", "array")];
       tool_required := ["playlist_id"; "video_ids"] |};
    {| tool_name := "search_and_add_to_playlist";
       tool_properties :=
         [("playlist_id", "string"); ("search_queries", "array")];
       tool_required := ["playlist_id"; "search_queries"] |};
    {| tool_name := "get_playlist_details";
       tool_properties := [("playlist_id", "string")];
       tool_required := ["playlist_id"] |};
    {| tool_name := "get_library_playlists";
       tool_properties := [("limit", "integer")];
       tool_required := [] |} ].

(** [list_tools] of [src/server_remote.py], lines 76-181; the schema of
    ["get_my_playlists"] has no ["required"]. *)
Definition remote_list_tools : list tool :=
  [ {| tool_name := "search_youtube_music";
       tool_properties := [("query", "string"); ("limit", "integer")];
       tool_required := ["query"] |};
    {| tool_name := "create_playlist";
       tool_properties :=
         [("title", "string"); ("description", "string");
          ("privacy_status", "string")];
       tool_required := ["title"] |};
    {| tool_name := "add_to_playlist";
       tool_properties := [("playlist_id", "string"); ("video_ids", "array")];
       tool_required := ["playlist_id"; "video_ids"] |};
    {| tool_name := "get_my_playlists";
       tool_properties := [("limit", "integer")];
       tool_required := [] |};
    {| tool_name := "search_and_add";
       tool_properties := [("playlist_id", "string"); ("queries", "array")];
       tool_required := ["playlist_id"; "queries"] |};
    {| tool_name := "get_playlist_details";
       tool_properties := [("playlist_id", "string")];
       tool_required := ["playlist_id"] |};
    {| tool_name := "delete_playlist";
       tool_properties := [("playlist_id", "string")];
       tool_required := ["playlist_id"] |} ].

(** [key in arguments]. *)
Definition has_argument (key : string) (args : arguments) : bool :=
  if String.eqb key "query" then bool_decide (is_Some (arg_query args))
  else if String.eqb key "limit" then bool_decide (is_Some (arg_limit args))
  else if String.eqb key "filter" then bool_decide (is_Some (arg_filter args))
  else if String.eqb key "title" then bool_decide (is_Some (arg_title args))
  else if String.eqb key "description"
  then bool_decide (is_Some (arg_description args))
  else if String.eqb key "privacy_status"
  then bool_decide (is_Some (arg_privacy_status args))
  else if String.eqb key "video_ids"
  then bool_decide (is_Some (arg_video_ids args))
  else if String.eqb key "playlist_id"
  then bool_decide (is_Some (arg_playlist_id args))
  else if String.eqb key "search_queries"
  then bool_decide (is_Some (arg_search_queries args))
  else if String.eqb key "queries" then bool_decide (is_Some (arg_queries args))
  else false.

(** The first of the required properties that the arguments lack. *)
Definition first_missing (required : list string) (args : arguments)
    : option string :=
  List.find (fun key => negb (has_argument key args)) required.

(** The text of the [TypeError] of [", ".join] on a list whose first
    element is [None]. *)
Definition join_error : string :=
  "sequence item 0: expected str instance, NoneType found".

(** ** [install.py] *)

Module Install.

(** What the script reads of its host: [platform.system()], the home
    directory and [os.getenv("APPDATA")]. *)
Record host := Host {
  system : string;
  home : string;
  appdata : option string }.

(** A path: the directory it starts from and what is joined to it with
    [/]. *)
Record path := Path { anchor : string; joined : string }.

(** [get_config_path], lines 11-22. *)
Definition get_config_path (h : host) : exn + path :=
  if String.eqb (system h) "Darwin" then
    inr {| anchor := home h;
           joined := "Library/Application Support/Claude/claude_desktop_config.json" |}
  else if String.eqb (system h) "Windows" then
    if Py.truthy_str (appdata h)
    then inr {| anchor := default "" (appdata h);
                joined := "Claude/claude_desktop_config.json" |}
    else inl (Exn RuntimeError "APPDATA environment variable not found")
  else
    inr {| anchor := home h;
           joined := ".config/Claude/claude_desktop_config.json" |}.

(** An entry of ["mcpServers"]: the one this script writes, or another
    server's, kept as it is. *)
Inductive entry :=
| Launch (command : string) (args : list string) (cwd : string)
| Foreign (raw : string).

(** The config, a JSON object: its ["mcpServers"] member, an object when
    present, and its other members. *)
Record config := Config {
  mcpServers : option (gmap string entry);
  others : gmap string string }.

(** A JSON value that is not an object, as far as the script can tell
    values apart: of an array, which elements are strings and which
    strings. *)
Inductive value :=
| Null
| Boolean (b : bool)
| Number (literal : string)
| Text (s : string)
| Array (elements : list (option string)).

(** [key in v] for such a value: a substring test on a string, a
    membership test on an array, and a [TypeError] ([None] here) on
    [null], a boolean or a number. *)
Definition has_key (key : string) (v : value) : option bool :=
  match v with
  | Null | Boolean _ | Number _ => None
  | Text s => Some (Py.contains key s)
  | Array elements =>
      Some (existsb (fun element =>
                       match element with
                       | Some s => String.eqb s key
                       | None => false
                       end) elements)
  end.

(** The config file: absent; bytes that [open(..., "r")] cannot decode;
    text that is not JSON; a config; a JSON object whose ["mcpServers"]
    member is not an object (with its other members); or JSON that is not
    an object at all. *)
Inductive file :=
| Missing
| Unparsable
| Parsed (c : config)
| Undecodable
| OddServers (servers : value) (rest : gmap string string)
| NotAnObject (v : value).

(** What a run raises: the error of [get_config_path], the
    [UnicodeDecodeError] of reading the file (which
    [except json.JSONDecodeError] does not catch), or the [TypeError] of
    using a value that is not an object as one. *)
Inductive failure :=
| NoConfigPath (e : exn)
| UnicodeDecodeError
| TypeErrorRaised.

(** Which message a run ends with. *)
Inductive message :=
| Added
| Removed
| NotInConfig
| NoConfig
| CouldNotParse.

(** The entry of lines 48-52. *)
Definition this_server (project_path : string) : entry :=
  Launch "python" ["-m"; "src.server"] project_path.

(** Lines 34-41 on a file that holds a config or is replaced by one:
    the existing config, or a new one when the file is absent or not
    JSON.  (The other files make the script raise, see
    [install_mcp_server]; for them this is the new config.) *)
Definition read_or_new (f : file) : config :=
  match f with
  | Parsed c => c
  | _ => {| mcpServers := None; others := ∅ |}
  end.

(** [install_mcp_server], lines 25-62, on a file system that can be
    written: the file it leaves and its last message, or what it raises
    before it writes.  Lines 44-48 index the parsed value and its
    ["mcpServers"] member as dicts: [TypeError] when one of them is
    not. *)
Definition install_mcp_server (h : host) (project_path : string) (f : file)
    : failure + (file * message) :=
  match get_config_path h with
  | inl e => inl (NoConfigPath e)
  | inr _ =>
      match f with
      | Undecodable => inl UnicodeDecodeError
      | OddServers _ _ | NotAnObject _ => inl TypeErrorRaised
      | Missing | Unparsable | Parsed _ =>
          let config := read_or_new f in
          let servers := default ∅ (mcpServers config) in
          inr (Parsed {| mcpServers :=
                           Some (<["youtube-music" := this_server project_path]>
                                   servers);
                         others := others config |},
               Added)
      end
  end.

(** [uninstall_mcp_server], lines 65-89.  Line 80 tests
    ["mcpServers" in config] and then ["youtube-music" in
    config["mcpServers"]]; on a value that is not an object the test is
    [has_key], and when it holds the subscript or the [del] that follows
    raises [TypeError]. *)
Definition uninstall_mcp_server (h : host) (f : file)
    : failure + (file * message) :=
  match get_config_path h with
  | inl e => inl (NoConfigPath e)
  | inr _ =>
      match f with
      | Missing => inr (Missing, NoConfig)
      | Undecodable => inl UnicodeDecodeError
      | Unparsable => inr (Unparsable, CouldNotParse)
      | Parsed config =>
          match mcpServers config with
          | Some servers =>
              if bool_decide (is_Some (servers !! "youtube-music"))
              then inr (Parsed {| mcpServers :=
                                    Some (delete "youtube-music" servers);
                                  others := others config |},
                        Removed)
              else inr (f, NotInConfig)
          | None => inr (f, NotInConfig)
          end
      | OddServers servers _ =>
          match has_key "youtube-music" servers with
          | Some false => inr (f, NotInConfig)
          | Some true | None => inl TypeErrorRaised
          end
      | NotAnObject v =>
          match has_key "mcpServers" v with
          | Some false => inr (f, NotInConfig)
          | Some true | None => inl TypeErrorRaised
          end
      end
  end.

(** The script's entry point, lines 92-98; [argv] is [sys.argv]. *)
Definition main (argv : list string) (h : host) (project_path : string)
    (f : file) : failure + (file * message) :=
  match argv with
  | _ :: flag :: _ =>
      if String.eqb flag "--uninstall"
      then uninstall_mcp_server h f
      else install_mcp_server h project_path f
  | _ => install_mcp_server h project_path f
  end.

Definition linux : host :=
  {| system := "Linux"; home := "/home/u"; appdata := None |}.


End Install.

(** ** [src/auth.py], class [AuthManager] *)

Module Auth.

(** What the code reads of a [Credentials] object. *)
Record credentials := Credentials {
  valid : bool;
  expired : bool;
  refresh_token : option string }.

(** The token file: absent, or what
    [Credentials.from_authorized_user_file] makes of it, which may be an
    exception. *)
Inductive token_file :=
| NoFile
| Token (parsed : exn + credentials).

(** The outside of [AuthManager]: the token file, what
    [credentials.refresh(Request())] turns credentials into, and the
    answer to the test call [channels().list(...).execute()] made with
    given credentials. *)
Record world := World {
  the_token : token_file;
  refresh : credentials -> exn + credentials;
  channels_list : credentials -> exn + unit }.

(** What [load_auth] raises: its own [FileNotFoundError], or an
    exception of a library call, or the [RuntimeError] of line 95. *)
Inductive error :=
| FileNotFoundError (message : string)
| Raised (e : exn).

Definition no_credentials : string :=
  "No valid credentials found." +:+ Py.nl
  +:+ "Run: python -m src.auth to set up authentication".

(** [credentials.expired and credentials.refresh_token], as a truth
    value. *)
Definition refreshable (c : credentials) : bool :=
  expired c && Py.truthy_str (refresh_token c).

(** Lines 91-97: the test call with the credentials in use. *)
Definition connect (w : world) (c : credentials) (file : token_file)
    : (error + credentials) * token_file :=
  match channels_list w c with
  | inl e =>
      (inl (Raised (Exn RuntimeError
                      ("Failed to connect to YouTube API: " +:+ exn_str e))),
       file)
  | inr _ => (inr c, file)
  end.

(** [load_auth], lines 64-97: the credentials of the client it returns,
    or what it raises, and the token file it leaves. *)
Definition load_auth (w : world) : (error + credentials) * token_file :=
  match the_token w with
  | NoFile => (inl (FileNotFoundError no_credentials), the_token w)
  | Token (inl e) => (inl (Raised e), the_token w)
  | Token (inr c) =>
      if negb (valid c) then
        if refreshable c then
          match refresh w c with
          | inl e => (inl (Raised e), the_token w)
          | inr c' => connect w c' (Token (inr c'))
          end
        else (inl (FileNotFoundError no_credentials), the_token w)
      else connect w c (the_token w)
  end.

(** [is_authenticated], lines 99-112, as a truth value. *)
Definition is_authenticated (w : world) : bool :=
  match the_token w with
  | NoFile => false
  | Token (inl _) => false
  | Token (inr c) => valid c || refreshable c
  end.

(** How [setup_oauth] ends. *)
Inductive setup_end :=
| NoClientSecret
| Cancelled
| Saved.

(** [setup_oauth], lines 28-62: [secrets] says whether
    [client_secret.json] exists, [answer] is what the user types when
    asked, [flow] is the outcome of the browser flow.  Returns how it
    ends, or the exception of the flow, and the token file it leaves. *)
Definition setup_oauth (secrets : bool) (file : token_file) (answer : string)
    (flow : exn + credentials) : (exn + setup_end) * token_file :=
  if negb secrets then (inr NoClientSecret, file)
  else
    let proceed :=
      match flow with
      | inl e => (inl e, file)
      | inr c => (inr Saved, Token (inr c))
      end in
    match file with
    | NoFile => proceed
    | Token _ =>
        if negb (String.eqb (Py.lower answer) "y")
        then (inr Cancelled, file)
        else proceed
    end.

Definition stale : credentials :=
  {| valid := false; expired := true; refresh_token := Some "r1" |}.

Definition fresh : credentials :=
  {| valid := true; expired := false; refresh_token := Some "r1" |}.

(** A world whose token has expired and can be refreshed. *)
Definition renewable : world :=
  {| the_token := Token (inr stale);
     refresh := fun _ => inr fresh;
     channels_list := fun _ => inr tt |}.

(** A world whose token has expired and has no refresh token. *)
Definition lapsed : world :=
  {| the_token :=
       Token (inr {| valid := false; expired := true; refresh_token := None |});
     refresh := fun _ => inr fresh;
     channels_list := fun _ => inr tt |}.

End Auth.

(** * Properties *)

(** ** Generic facts on the monad *)

Ltac unfold_m :=
  unfold bind, ret, raise, try_except, execute, out_of_fuel, getitem in *.

Lemma bind_ret_l {A B} (a : A) (k : A -> M B) l : bind (ret a) k l = k a l.
Proof. reflexivity. Qed.

Lemma bind_Ret {A B} (m : M A) (k : A -> M B) l a l' :
  m l = (Ret a, l') -> bind m k l = k a l'.
Proof. intros H. unfold bind. now rewrite H. Qed.

(** ** Strings *)

Lemma prefix_app (p s : string) : String.prefix p (p +:+ s) = true.
Proof.
  induction p as [|c p IH]; simpl.
  - now destruct s.
  - destruct (ascii_dec c c) as [_|n]; [exact IH | now destruct n].
Qed.

Lemma prefix_split (p s : string) :
  String.prefix p s = true -> exists t, s = p +:+ t.
Proof.
  revert s. induction p as [|c p IH]; intros s H.
  - now exists s.
  - destruct s as [|d s]; simpl in H; [discriminate|].
    destruct (ascii_dec c d) as [->|]; [|discriminate].
    destruct (IH _ H) as [t ->]. now exists t.
Qed.

Lemma contains_unfold (needle hay : string) :
  Py.contains needle hay =
  if String.prefix needle hay then true
  else match hay with
       | EmptyString => false
       | String _ hay' => Py.contains needle hay'
       end.
Proof. now destruct hay. Qed.

(** [Py.contains] decides the substring relation of Python's [in]. *)
Lemma contains_spec (needle hay : string) :
  Py.contains needle hay = true <->
  exists pre post, hay = pre +:+ needle +:+ post.
Proof.
  split.
  - induction hay as [|c hay IH]; rewrite contains_unfold;
      destruct (String.prefix needle _) eqn:E; intros H.
    + destruct (prefix_split _ _ E) as [t Ht]. now exists "", t.
    + discriminate.
    + destruct (prefix_split _ _ E) as [t Ht]. now exists "", t.
    + destruct (IH H) as (pre & post & ->).
      now exists (String c pre), post.
  - intros (pre & post & ->).
    induction pre as [|c pre IH]; rewrite contains_unfold.
    + change ("" +:+ needle +:+ post) with (needle +:+ post).
      now rewrite prefix_app.
    + cbn [String.append].
      now destruct (String.prefix needle _).
Qed.

(** ** C7: the request of [search_tracks] *)

Section SearchRequest.
Variable R : Remote.

(** [search_tracks] makes exactly one remote call, whatever the remote
    answers. *)
Lemma search_tracks_log query limit filter l :
  snd (search_tracks R query limit filter l) =
  l ++ [SearchList (search_query_of query filter)
          (default "video" (type_map !! filter))
          (Z.min limit 50)
          (if String.eqb filter "songs" then Some "10" else None)].
Proof.
  unfold search_tracks. unfold_m.
  now destruct (search_list R l _ _ _ _).
Qed.

(** C7. For every query, limit and filter, the one remote call that
    [search_tracks] issues carries [maxResults = min(limit, 50)], which
    is at most 50, and its query string is [query + " music"] when the
    filter is "songs" and "music" does not occur in [query.lower()], and
    [query] itself otherwise. *)
Theorem search_tracks_request query limit filter l :
  exists q type maxResults category,
    snd (search_tracks R query limit filter l) =
      l ++ [SearchList q type maxResults category]
    /\ maxResults = Z.min limit 50
    /\ maxResults <= 50
    /\ q = (if String.eqb filter "songs"
            then if Py.contains "music" (Py.lower query)
                 then query else query +:+ " music"
            else query).
Proof.
  eexists _, _, _, _. split; [apply search_tracks_log|].
  split; [reflexivity|]. split; [lia|].
  unfold search_query_of.
  destruct (String.eqb filter "songs"); [|reflexivity].
  now destruct (Py.contains "music" (Py.lower query)).
Qed.

End SearchRequest.

(** ** C8: [add_playlist_items] *)

Section AddItems.
Variable R : Remote.
Variable playlist_id : string.

Lemma successes_le l video_ids :
  (successes R playlist_id l video_ids <= length video_ids)%nat.
Proof.
  revert l. induction video_ids as [|v rest IH]; intros l; simpl; [lia|].
  specialize (IH (l ++ [PlaylistItemsInsert playlist_id v])).
  destruct (playlistItems_insert R l playlist_id v); lia.
Qed.

(** The loop returns for every list, having made one insert call per id,
    in order. *)
Lemma add_items_loop_run video_ids added l :
  add_items_loop R playlist_id video_ids added l =
  (Ret (added + successes R playlist_id l video_ids)%nat,
   l ++ map (PlaylistItemsInsert playlist_id) video_ids).
Proof.
  revert added l. induction video_ids as [|v rest IH]; intros added l.
  - simpl. unfold ret. now rewrite Nat.add_0_r, app_nil_r.
  - cbn [add_items_loop successes map].
    unfold bind at 1, try_except, _add_video_to_playlist, execute.
    unfold bind at 1.
    destruct (playlistItems_insert R l playlist_id v); cbn [ret];
      rewrite IH, <- app_assoc; cbn [app]; do 2 f_equal; lia.
Qed.

(** The operation returns, with the counts of the loop. *)
Lemma add_playlist_items_run video_ids l :
  add_playlist_items R playlist_id video_ids l =
  (Ret {| ar_status := "success";
          ar_playlistId := playlist_id;
          ar_addedCount := successes R playlist_id l video_ids;
          ar_requestedCount := length video_ids |},
   l ++ map (PlaylistItemsInsert playlist_id) video_ids).
Proof.
  unfold add_playlist_items, try_except, bind at 1.
  rewrite add_items_loop_run. reflexivity.
Qed.

(** C8. For every list of video ids and every remote,
    [add_playlist_items] returns (it never raises), the remote calls it
    makes are exactly one [playlistItems().insert] per id in list order,
    [requestedCount] is the length of the list, [addedCount] is the
    number of those calls that the remote accepted, and
    [0 <= addedCount <= requestedCount]. *)
Theorem add_playlist_items_counts video_ids l :
  exists result,
    add_playlist_items R playlist_id video_ids l =
      (Ret result, l ++ map (PlaylistItemsInsert playlist_id) video_ids)
    /\ ar_requestedCount result = length video_ids
    /\ ar_addedCount result = successes R playlist_id l video_ids
    /\ (0 <= ar_addedCount result <= ar_requestedCount result)%nat.
Proof.
  rewrite add_playlist_items_run.
  eexists. split; [reflexivity|]. cbn.
  repeat split; try lia. apply successes_le.
Qed.

End AddItems.

(** ** C1, C2, C3: [search_and_add_to_playlist] *)

Lemma select_length {A} (mask : list bool) (xs : list A) :
  length mask = length xs ->
  (length (select mask xs) + length (select (map negb mask) xs))%nat
  = length xs.
Proof.
  revert xs. induction mask as [|b mask IH]; intros [|x xs] H;
    try discriminate; [reflexivity|].
  injection H as H. specialize (IH _ H).
  destruct b; simpl; lia.
Qed.

Lemma select_sublist {A} (mask : list bool) (xs : list A) :
  sublist (select mask xs) xs.
Proof.
  revert xs. induction mask as [|b mask IH]; intros [|x xs]; simpl;
    try apply sublist_nil_l.
  destruct b; [apply sublist_skip | apply sublist_cons]; apply IH.
Qed.

Lemma select_perm {A} (mask : list bool) (xs : list A) :
  length mask = length xs ->
  select mask xs ++ select (map negb mask) xs ≡ₚ xs.
Proof.
  revert xs. induction mask as [|b mask IH]; intros [|x xs] H;
    try discriminate; [reflexivity|].
  injection H as H. specialize (IH _ H).
  destruct b; simpl.
  - now rewrite IH.
  - rewrite <- Permutation_middle. now rewrite IH.
Qed.

Section Batch.
Variable R : Remote.

(** [search_tracks] returns or raises; the remote decides which. *)
Lemma search_tracks_run query limit filter l :
  search_tracks R query limit filter l =
  (match search_list R l (search_query_of query filter)
           (default "video" (type_map !! filter)) (Z.min limit 50)
           (if String.eqb filter "songs" then Some "10" else None) with
   | inl e => Raise (Exn RuntimeError ("Search failed: " +:+ exn_str e))
   | inr response =>
       Ret (map (search_result (default "video" (type_map !! filter)))
              (default [] (sr_items response)))
   end,
   l ++ [SearchList (search_query_of query filter)
           (default "video" (type_map !! filter)) (Z.min limit 50)
           (if String.eqb filter "songs" then Some "10" else None)]).
Proof.
  unfold search_tracks. unfold_m.
  now destruct (search_list R l _ _ _ _).
Qed.

Lemma search_tracks_songs_log query l :
  snd (search_tracks R query 1 "songs" l) = l ++ [search_call query].
Proof. now rewrite search_tracks_run. Qed.

(** One iteration of the loop: it always returns, and moves the query to
    exactly one of the two lists. *)
Lemma search_iteration query acc l :
  exists acc',
    try_except (search_one R query acc) (fun _ => ret (with_failed acc query)) l
      = (Ret acc', l ++ [search_call query])
    /\ if resolves R l query
       then exists t, at_query t = query /\ acc' = with_added acc t
       else acc' = with_failed acc query.
Proof.
  unfold resolves, search_one, try_except, bind.
  rewrite search_tracks_run. cbn [fst].
  destruct (search_list R l _ _ _ _) as [e|response].
  - eexists. split; reflexivity.
  - destruct (map _ _) as [|r0 results].
    + eexists. split; reflexivity.
    + destruct (Py.truthy_str (t_videoId r0)).
      * eexists. split; [reflexivity|].
        exists {| at_query := query;
                  at_matched := t_title r0;
                  at_artists := map a_name (t_artists r0);
                  at_videoId := default "" (t_videoId r0) |}.
        split; reflexivity.
      * eexists. split; reflexivity.
Qed.

(** The loop returns for every list of queries, and splits it as the
    outcomes of the searches say. *)
Lemma search_loop_run queries acc l :
  exists acc',
    search_loop R queries acc l = (Ret acc', l ++ map search_call queries)
    /\ map at_query (added_tracks acc') =
         map at_query (added_tracks acc) ++ select (outcomes R l queries) queries
    /\ failed_queries acc' =
         failed_queries acc ++ select (map negb (outcomes R l queries)) queries
    /\ (video_ids acc = map at_videoId (added_tracks acc) ->
        video_ids acc' = map at_videoId (added_tracks acc')).
Proof.
  revert acc l. induction queries as [|query rest IH]; intros acc l.
  - exists acc. cbn. rewrite !app_nil_r. auto.
  - cbn [search_loop outcomes map select].
    destruct (search_iteration query acc l) as (acc1 & Hrun & Hacc1).
    rewrite search_tracks_songs_log.
    destruct (IH acc1 (l ++ [search_call query]))
      as (acc' & Hrest & Hadded & Hfailed & Hids).
    exists acc'. split.
    { erewrite bind_Ret by exact Hrun. rewrite Hrest.
      now rewrite <- app_assoc. }
    rewrite Hadded, Hfailed.
    destruct (resolves R l query).
    + destruct Hacc1 as (t & Hq & ->). cbn.
      rewrite map_app, <- !app_assoc. cbn. rewrite Hq.
      repeat split; trivial.
      intros H. apply Hids. cbn. rewrite map_app. now rewrite H.
    + subst acc1. cbn. rewrite <- !app_assoc.
      repeat split; trivial.
Qed.

Lemma outcomes_length l queries : length (outcomes R l queries) = length queries.
Proof.
  revert l. induction queries as [|q rest IH]; intros l; simpl; [|rewrite IH];
    reflexivity.
Qed.

(** After the loop, the operation makes the bulk add (when something was
    resolved) and returns. *)
Lemma search_and_add_run playlist_id queries l acc l1 :
  search_loop R queries empty_acc l = (Ret acc, l1) ->
  search_and_add_to_playlist R playlist_id queries l =
  (Ret {| br_status := "completed";
          br_addedCount := length (video_ids acc);
          br_addedTracks := added_tracks acc;
          br_failedQueries := failed_queries acc |},
   l1 ++ map (PlaylistItemsInsert playlist_id) (video_ids acc)).
Proof.
  intros Hloop. unfold search_and_add_to_playlist.
  erewrite bind_Ret by exact Hloop.
  destruct (video_ids acc) as [|v vs] eqn:Hv; cbn [Py.truthy_list].
  - unfold bind, ret. cbn. now rewrite app_nil_r.
  - unfold bind at 1. unfold bind at 1.
    rewrite add_playlist_items_run. reflexivity.
Qed.

End Batch.

Section BatchClaims.
Variable R : Remote.
Variable playlist_id : string.

(** C1. For every list of queries and every remote,
    [search_and_add_to_playlist] returns a result in which
    [len(addedTracks) + len(failedQueries) = len(queries)]; the queries
    recorded in [addedTracks] are the input queries at the positions whose
    search resolved and [failedQueries] are those at the other positions,
    so each position of the input goes to exactly one of the two lists;
    the two lists together are a permutation of the input and each is a
    subsequence of it (input order is kept). *)
Theorem search_and_add_partition queries l :
  exists result l',
    search_and_add_to_playlist R playlist_id queries l = (Ret result, l')
    /\ (length (br_addedTracks result) + length (br_failedQueries result))%nat
       = length queries
    /\ length (outcomes R l queries) = length queries
    /\ map at_query (br_addedTracks result)
       = select (outcomes R l queries) queries
    /\ br_failedQueries result
       = select (map negb (outcomes R l queries)) queries
    /\ map at_query (br_addedTracks result) ++ br_failedQueries result
       ≡ₚ queries
    /\ sublist (map at_query (br_addedTracks result)) queries
    /\ sublist (br_failedQueries result) queries.
Proof.
  destruct (search_loop_run R queries empty_acc l)
    as (acc & Hloop & Hadded & Hfailed & _).
  cbn in Hadded, Hfailed.
  eexists _, _. split; [apply (search_and_add_run R); exact Hloop|].
  cbn [br_addedTracks br_failedQueries].
  pose proof (outcomes_length R l queries) as Hlen.
  rewrite Hfailed, <- (length_map at_query), Hadded.
  split; [now apply select_length|].
  split; [exact Hlen|].
  split; [reflexivity|]. split; [reflexivity|].
  split; [now apply select_perm|].
  split; apply select_sublist.
Qed.

(** C2. For every list of queries and every remote, the result of
    [search_and_add_to_playlist] has [addedCount = len(addedTracks)];
    [addedCount] is the length of the pending-add list [video_ids] that
    the loop built, which holds the identifiers of [addedTracks] in order
    and is what the bulk add is called with. *)
Theorem search_and_add_count queries l :
  exists result l' acc l1,
    search_and_add_to_playlist R playlist_id queries l = (Ret result, l')
    /\ search_loop R queries empty_acc l = (Ret acc, l1)
    /\ br_addedCount result = length (br_addedTracks result)
    /\ br_addedCount result = length (video_ids acc)
    /\ video_ids acc = map at_videoId (br_addedTracks result)
    /\ l' = l1 ++ map (PlaylistItemsInsert playlist_id) (video_ids acc).
Proof.
  destruct (search_loop_run R queries empty_acc l)
    as (acc & Hloop & _ & _ & Hids).
  specialize (Hids eq_refl).
  eexists _, _, acc, _.
  split; [apply (search_and_add_run R); exact Hloop|].
  split; [exact Hloop|].
  cbn [br_addedCount br_addedTracks].
  rewrite Hids at 1. rewrite length_map. auto.
Qed.

Lemma search_loop_app before after acc l :
  search_loop R (before ++ after) acc l =
  bind (search_loop R before acc) (search_loop R after) l.
Proof.
  revert acc l. induction before as [|q before IH]; intros acc l.
  - reflexivity.
  - cbn [app search_loop]. unfold bind.
    destruct (try_except _ _ l) as [[acc1| |] l1]; try reflexivity.
    now rewrite IH.
Qed.

(** C3. Whatever was processed before, when the search for a query
    raises, the loop goes on with the queries after it from the lists
    [with_failed acc query], that is with the query appended to
    [failed_queries] and nothing else changed; the whole operation
    returns a result (no exception leaves it) and that result lists the
    query in [failedQueries], right after the failures before it. *)
Theorem search_error_lands_in_failed before query after l acc l1 e l2 :
  search_loop R before empty_acc l = (Ret acc, l1) ->
  search_tracks R query 1 "songs" l1 = (Raise e, l2) ->
  exists result l',
    search_and_add_to_playlist R playlist_id (before ++ query :: after) l
      = (Ret result, l')
    /\ search_loop R (before ++ query :: after) empty_acc l
       = search_loop R after (with_failed acc query) l2
    /\ (exists later,
          br_failedQueries result = failed_queries acc ++ query :: later)
    /\ In query (br_failedQueries result).
Proof.
  intros Hbefore Hraise.
  assert (Hstep : search_loop R (before ++ query :: after) empty_acc l
                  = search_loop R after (with_failed acc query) l2).
  { rewrite search_loop_app. erewrite bind_Ret by exact Hbefore.
    cbn [search_loop]. unfold bind at 1, try_except, search_one.
    unfold bind at 1. now rewrite Hraise. }
  destruct (search_loop_run R after (with_failed acc query) l2)
    as (acc' & Hafter & _ & Hfailed & _).
  rewrite <- Hstep in Hafter.
  eexists _, _. split; [apply (search_and_add_run R); exact Hafter|].
  split; [exact Hstep|].
  cbn [br_failedQueries]. rewrite Hfailed. cbn [with_failed failed_queries].
  rewrite <- app_assoc. cbn [app].
  split; [eexists; reflexivity|].
  apply in_or_app. right. now left.
Qed.

End BatchClaims.

(** The search for the second of three queries raises; the batch still
    returns and lists that query as failed. *)
Lemma search_error_lands_in_failed_witness :
  let acc :=
    with_added empty_acc
      {| at_query := "Neu! Hallogallo";
         at_matched := Some "Hallogallo";
         at_artists := [Some "Neu!"];
         at_videoId := "abc123" |} in
  let l1 := [search_call "Neu! Hallogallo"] in
  let e := Exn RuntimeError "Search failed: quotaExceeded" in
  let l2 := [search_call "Neu! Hallogallo"; search_call "boom"] in
  search_loop Scenario.service ["Neu! Hallogallo"] empty_acc [] = (Ret acc, l1)
  /\ search_tracks Scenario.service "boom" 1 "songs" l1 = (Raise e, l2)
  /\ exists result l',
       search_and_add_to_playlist Scenario.service "PL1"
         ["Neu! Hallogallo"; "boom"; "no such song"] [] = (Ret result, l')
       /\ In "boom" (br_failedQueries result).
Proof.
  intros acc l1 e l2.
  assert (H1 : search_loop Scenario.service ["Neu! Hallogallo"] empty_acc []
               = (Ret acc, l1)) by (vm_compute; reflexivity).
  assert (H2 : search_tracks Scenario.service "boom" 1 "songs" l1
               = (Raise e, l2)) by (vm_compute; reflexivity).
  split; [exact H1|]. split; [exact H2|].
  destruct (search_error_lands_in_failed Scenario.service "PL1"
              ["Neu! Hallogallo"] "boom" ["no such song"] [] acc l1 e l2 H1 H2)
    as (result & l' & Hrun & _ & _ & Hin).
  exists result, l'. split; [exact Hrun | exact Hin].
Defined.

(** A repeated query is two queries: when the remote answers the two
    searches differently, the same string is recorded once in each
    list. *)
Remark repeated_query_in_both_lists :
  exists result l',
    search_and_add_to_playlist Scenario.once "PL1" ["a"; "a"] [] = (Ret result, l')
    /\ map at_query (br_addedTracks result) = ["a"]
    /\ br_failedQueries result = ["a"].
Proof. eexists _, _. vm_compute. repeat split. Qed.

(** The scenario of the specification: one query, one match, one bulk
    add of that match. *)
Example search_and_add_scenario :
  search_and_add_to_playlist Scenario.service "PL1" ["Neu! Hallogallo"] [] =
  (Ret {| br_status := "completed";
          br_addedCount := 1;
          br_addedTracks :=
            [ {| at_query := "Neu! Hallogallo";
                 at_matched := Some "Hallogallo";
                 at_artists := [Some "Neu!"];
                 at_videoId := "abc123" |} ];
          br_failedQueries := [] |},
   [ SearchList "Neu! Hallogallo music" "video" 1 (Some "10");
     PlaylistItemsInsert "PL1" "abc123" ]).
Proof. vm_compute. reflexivity. Qed.

(** ** C4, C5: the pagination of [get_playlist] *)

Lemma limit_reached_cap n tracks :
  1 <= n ->
  limit_reached (Some n) tracks = (Z.to_nat n <=? length tracks)%nat.
Proof.
  intros Hn. unfold limit_reached.
  destruct (Z.eqb_spec n 0); [lia|]. cbn [negb andb].
  destruct (Z.leb_spec n (Z.of_nat (length tracks)));
    destruct (Nat.leb_spec (Z.to_nat n) (length tracks)); trivial; lia.
Qed.

Lemma collect_items_no_cap items tracks :
  collect_items None items tracks = tracks ++ map playlist_track_of items.
Proof.
  revert tracks. induction items as [|item rest IH]; intros tracks; cbn.
  - now rewrite app_nil_r.
  - now rewrite IH, <- app_assoc.
Qed.

Lemma collect_items_cap n items tracks :
  1 <= n -> (length tracks < Z.to_nat n)%nat ->
  collect_items (Some n) items tracks =
  tracks ++ map playlist_track_of (firstn (Z.to_nat n - length tracks) items).
Proof.
  intros Hn. revert tracks.
  induction items as [|item rest IH]; intros tracks Hlt.
  - cbn. now rewrite firstn_nil, app_nil_r.
  - cbn [collect_items]. rewrite limit_reached_cap by exact Hn.
    rewrite length_app. cbn [length].
    replace (Z.to_nat n - length tracks)%nat
      with (S (Z.to_nat n - (length tracks + 1)))%nat by lia.
    cbn [firstn map].
    destruct (Nat.leb_spec (Z.to_nat n) (length tracks + 1)) as [Hle|Hgt].
    + replace (Z.to_nat n - (length tracks + 1))%nat with 0%nat by lia.
      reflexivity.
    + rewrite IH by (rewrite length_app; cbn; lia).
      rewrite length_app, <- app_assoc. reflexivity.
Qed.

Lemma all_tracks_cons page pages :
  all_tracks (page :: pages) =
  map playlist_track_of (page_items page) ++ all_tracks pages.
Proof. unfold all_tracks. cbn. now rewrite map_app. Qed.

Lemma item_count_cons page pages :
  item_count (page :: pages) = (length (page_items page) + item_count pages)%nat.
Proof. reflexivity. Qed.

Lemma all_tracks_length pages : length (all_tracks pages) = item_count pages.
Proof.
  induction pages as [|page pages IH]; [reflexivity|].
  rewrite all_tracks_cons, length_app, length_map, IH. reflexivity.
Qed.

Section Pagination.
Variable R : Remote.
Variable playlist_id : string.

(** With no cap the loop follows the tokens to the page that has none. *)
Lemma fetch_pages_no_cap pages : forall fuel l token tracks,
  pages <> [] ->
  serves R playlist_id l token pages ->
  Py.truthy_str (last_token pages) = false ->
  (length pages <= fuel)%nat ->
  fetch_pages fuel R playlist_id None token tracks l =
  (Ret (tracks ++ all_tracks pages),
   l ++ page_calls playlist_id token pages).
Proof.
  induction pages as [|page rest IH]; intros fuel l token tracks Hne Hs Hlast Hfuel;
    [contradiction|].
  destruct fuel as [|fuel]; [cbn in Hfuel; lia|].
  destruct Hs as [Hpage Hrest].
  cbn [fetch_pages]. unfold bind, execute. rewrite Hpage.
  rewrite collect_items_no_cap. cbn [limit_reached orb].
  rewrite all_tracks_cons. fold (page_items page).
  destruct rest as [|page2 rest].
  - cbn in Hlast. rewrite Hlast. cbn. now rewrite !app_nil_r.
  - destruct Hrest as [Htok Hrest]. rewrite Htok. cbn [negb orb].
    rewrite IH; trivial; [|discriminate|cbn in *; lia].
    cbn [page_calls]. now rewrite <- !app_assoc.
Qed.

(** With a cap of at least one the loop stops at the page on which the
    accumulated tracks reach the cap, whatever token that page has. *)
Lemma fetch_pages_cap n pages : forall fuel l token tracks,
  1 <= n ->
  pages <> [] ->
  serves R playlist_id l token pages ->
  (length tracks + item_count (removelast pages) < Z.to_nat n)%nat ->
  (Z.to_nat n <= length tracks + item_count pages)%nat ->
  (length pages <= fuel)%nat ->
  fetch_pages fuel R playlist_id (Some n) token tracks l =
  (Ret (tracks ++ firstn (Z.to_nat n - length tracks) (all_tracks pages)),
   l ++ page_calls playlist_id token pages).
Proof.
  induction pages as [|page rest IH];
    intros fuel l token tracks Hn Hne Hs Hbefore Hreach Hfuel; [contradiction|].
  destruct fuel as [|fuel]; [cbn in Hfuel; lia|].
  destruct Hs as [Hpage Hrest].
  cbn [fetch_pages]. unfold bind, execute. rewrite Hpage.
  fold (page_items page).
  assert (Hlt : (length tracks < Z.to_nat n)%nat) by lia.
  rewrite collect_items_cap by trivial.
  rewrite limit_reached_cap by trivial.
  rewrite all_tracks_cons, length_app, length_map.
  destruct rest as [|page2 rest].
  - cbn in Hreach. rewrite length_firstn.
    destruct (Nat.leb_spec (Z.to_nat n)
      (length tracks + (Z.to_nat n - length tracks) `min` length (page_items page)))
      as [_|Hgt]; [|lia].
    rewrite orb_true_r. unfold all_tracks at 1. cbn [map concat page_calls ret].
    rewrite !app_nil_r, firstn_map. reflexivity.
  - destruct Hrest as [Htok Hrest]. rewrite Htok. cbn [negb orb].
    change (removelast (page :: page2 :: rest))
      with (page :: removelast (page2 :: rest)) in Hbefore.
    rewrite item_count_cons in Hbefore, Hreach.
    rewrite firstn_all2 by lia.
    destruct (Nat.leb_spec (Z.to_nat n) (length tracks + length (page_items page)))
      as [Hle|_]; [lia|].
    rewrite IH; trivial;
      [|discriminate|rewrite length_app, length_map; lia ..|cbn in *; lia].
    rewrite length_app, length_map. cbn [page_calls].
    rewrite <- !app_assoc. cbn [app].
    rewrite (firstn_app (Z.to_nat n - length tracks)), length_map.
    rewrite (firstn_all2 (map _ _)) by (rewrite length_map; lia).
    rewrite Nat.sub_add_distr. reflexivity.
Qed.

(** A cap of zero is falsy and so is no cap at all. *)
Lemma fetch_pages_zero_cap fuel : forall token tracks l,
  fetch_pages fuel R playlist_id (Some 0) token tracks l =
  fetch_pages fuel R playlist_id None token tracks l.
Proof.
  assert (Hc : forall items tracks,
             collect_items (Some 0) items tracks = collect_items None items tracks).
  { induction items as [|i items IHi]; intros tracks; cbn; [reflexivity|apply IHi]. }
  induction fuel as [|fuel IH]; intros token tracks l; [reflexivity|].
  cbn [fetch_pages]. unfold bind.
  destruct (execute _ _ l) as [[page| |] l1]; trivial.
  rewrite Hc. cbn [limit_reached Z.eqb negb andb].
  destruct (negb _ || false)%bool; [reflexivity|apply IH].
Qed.

End Pagination.

Section PaginationClaims.
Variable R : Remote.
Variable playlist_id : string.

(** Once the metadata is found, [get_playlist] returns what the
    pagination loop returns. *)
Lemma get_playlist_run fuel limit l response info others tracks l2 :
  playlists_list_id R l "snippet,contentDetails" playlist_id = inr response ->
  plr_items response = Some (info :: others) ->
  fetch_pages fuel R playlist_id limit None [] (l ++ [metadata_call playlist_id])
    = (Ret tracks, l2) ->
  exists result,
    get_playlist fuel R playlist_id limit l = (Ret result, l2)
    /\ pl_tracks result = tracks.
Proof.
  intros Hmeta Hitems Hfetch.
  unfold metadata_call in Hfetch.
  unfold get_playlist, try_except, bind at 1, execute.
  rewrite Hmeta, Hitems. unfold bind. cbn [default from_option id].
  rewrite Hfetch.
  eexists. split; reflexivity.
Qed.

(** C5. [get_playlist] without a cap on a playlist that exists: if the
    remote serves the pages [pages] along their continuation tokens and
    the last of them carries no token, then, given fuel for that many
    iterations, [get_playlist] returns; after the metadata call it has
    requested exactly those pages, the first with no token and each next
    one with the token of the page before; its tracks are the normalized
    items of the pages in response order, and their number is the sum of
    the per-page item counts. *)
Theorem get_playlist_no_cap fuel l response info others pages :
  playlists_list_id R l "snippet,contentDetails" playlist_id = inr response ->
  plr_items response = Some (info :: others) ->
  pages <> [] ->
  serves R playlist_id (l ++ [metadata_call playlist_id]) None pages ->
  Py.truthy_str (last_token pages) = false ->
  (length pages <= fuel)%nat ->
  exists result,
    get_playlist fuel R playlist_id None l =
      (Ret result,
       (l ++ [metadata_call playlist_id]) ++ page_calls playlist_id None pages)
    /\ pl_tracks result = all_tracks pages
    /\ length (pl_tracks result) = item_count pages.
Proof.
  intros Hmeta Hitems Hne Hserves Hlast Hfuel.
  destruct (get_playlist_run fuel None l response info others
              (all_tracks pages)
              ((l ++ [metadata_call playlist_id]) ++ page_calls playlist_id None pages)
              Hmeta Hitems) as (result & Hrun & Htracks).
  { now rewrite (fetch_pages_no_cap R playlist_id pages). }
  exists result. split; [exact Hrun|]. split; [exact Htracks|].
  rewrite Htracks. apply all_tracks_length.
Qed.

(** C4. [get_playlist] with a cap [n >= 1] on a playlist that exists: if
    the remote serves the pages [pages] along their continuation tokens,
    the pages before the last hold fewer than [n] items and all of them
    together hold at least [n], then, given fuel for that many
    iterations, [get_playlist] returns exactly the first [n] normalized
    items, and after the metadata call it has requested exactly those
    pages: no page is requested after the one on which the cap was
    reached, whatever continuation token that page carries. *)
Theorem get_playlist_cap n fuel l response info others pages :
  1 <= n ->
  playlists_list_id R l "snippet,contentDetails" playlist_id = inr response ->
  plr_items response = Some (info :: others) ->
  pages <> [] ->
  serves R playlist_id (l ++ [metadata_call playlist_id]) None pages ->
  (item_count (removelast pages) < Z.to_nat n)%nat ->
  (Z.to_nat n <= item_count pages)%nat ->
  (length pages <= fuel)%nat ->
  exists result,
    get_playlist fuel R playlist_id (Some n) l =
      (Ret result,
       (l ++ [metadata_call playlist_id]) ++ page_calls playlist_id None pages)
    /\ pl_tracks result = firstn (Z.to_nat n) (all_tracks pages)
    /\ Z.of_nat (length (pl_tracks result)) = n.
Proof.
  intros Hn Hmeta Hitems Hne Hserves Hbefore Hreach Hfuel.
  destruct (get_playlist_run fuel (Some n) l response info others
              (firstn (Z.to_nat n) (all_tracks pages))
              ((l ++ [metadata_call playlist_id]) ++ page_calls playlist_id None pages)
              Hmeta Hitems) as (result & Hrun & Htracks).
  { rewrite (fetch_pages_cap R playlist_id n pages); trivial.
    cbn [length app]. now rewrite Nat.sub_0_r. }
  exists result. split; [exact Hrun|]. split; [exact Htracks|].
  rewrite Htracks, length_firstn, all_tracks_length. lia.
Qed.

End PaginationClaims.

(** Three pages, the third without a token: all five tracks come back
    after three page requests. *)
Lemma get_playlist_no_cap_witness :
  let pages := [Scenario.page1; Scenario.page2; Scenario.page3] in
  exists result,
    get_playlist 3 Scenario.service "PL1" None [] =
      (Ret result,
       [ PlaylistsListId "snippet,contentDetails" "PL1";
         PlaylistItemsList "PL1" 50 None;
         PlaylistItemsList "PL1" 50 (Some "t1");
         PlaylistItemsList "PL1" 50 (Some "t2") ])
    /\ pl_tracks result = all_tracks pages
    /\ length (pl_tracks result) = 5%nat.
Proof.
  intros pages.
  apply (get_playlist_no_cap Scenario.service "PL1" 3 []
           {| plr_items := Some [Scenario.the_playlist] |}
           Scenario.the_playlist [] pages).
  - reflexivity.
  - reflexivity.
  - discriminate.
  - cbn. repeat split.
  - reflexivity.
  - cbn. lia.
Defined.

(** A cap of three on the same playlist: the cap is reached on the second
    page, which carries the token ["t2"]; the third page is not
    requested. *)
Lemma get_playlist_cap_witness :
  let pages := [Scenario.page1; Scenario.page2] in
  Py.truthy_str (last_token pages) = true
  /\ exists result,
       get_playlist 5 Scenario.service "PL1" (Some 3) [] =
         (Ret result,
          [ PlaylistsListId "snippet,contentDetails" "PL1";
            PlaylistItemsList "PL1" 50 None;
            PlaylistItemsList "PL1" 50 (Some "t1") ])
       /\ pl_tracks result = firstn 3 (all_tracks pages)
       /\ Z.of_nat (length (pl_tracks result)) = 3.
Proof.
  intros pages. split; [reflexivity|].
  apply (get_playlist_cap Scenario.service "PL1" 3 5 []
           {| plr_items := Some [Scenario.the_playlist] |}
           Scenario.the_playlist [] pages).
  - lia.
  - reflexivity.
  - reflexivity.
  - discriminate.
  - cbn. repeat split.
  - cbn. lia.
  - cbn. lia.
  - cbn. lia.
Defined.

(** ** C6: the errors of the client operations *)

(** Every operation wraps whatever its body raises into a
    [RuntimeError] whose message starts with the operation's own text. *)
Lemma wrapped_failure {A} (m : M A) (pre : string) l e :
  raised (fst (try_except m
                 (fun e => raise (Exn RuntimeError (pre +:+ exn_str e))) l))
    = Some e ->
  exn_type e = RuntimeError /\ String.prefix pre (exn_str e) = true.
Proof.
  unfold try_except, raise.
  destruct (m l) as [[a|e0|] l']; cbn; intros [=]. subst e.
  split; [reflexivity | apply prefix_app].
Qed.

(** No two operations share a message prefix, and none continues
    another's. *)
Lemma error_prefix_apart op1 op2 :
  String.prefix (error_prefix op1) (error_prefix op2) = true ->
  error_prefix op1 = error_prefix op2.
Proof. destruct op1, op2; cbn; trivial; discriminate. Qed.

Section NotFound.
Variable R : Remote.
Variable playlist_id : string.

(** A playlist that the remote does not list makes [get_playlist] fail
    with the message of line 197 behind the prefix of line 244. *)
Lemma get_playlist_not_found fuel limit l response :
  playlists_list_id R l "snippet,contentDetails" playlist_id = inr response ->
  default [] (plr_items response) = [] ->
  get_playlist fuel R playlist_id limit l =
  (Raise (Exn RuntimeError
            ("Failed to retrieve playlist: Playlist not found: " +:+ playlist_id)),
   l ++ [metadata_call playlist_id]).
Proof.
  intros Hmeta Hitems.
  unfold get_playlist, try_except, bind, execute.
  rewrite Hmeta, Hitems. reflexivity.
Qed.

Lemma update_playlist_not_found title description l response :
  playlists_list_id R l "snippet,status" playlist_id = inr response ->
  default [] (plr_items response) = [] ->
  update_playlist R playlist_id title description l =
  (Raise (Exn RuntimeError
            ("Failed to update playlist: Playlist not found: " +:+ playlist_id)),
   l ++ [PlaylistsListId "snippet,status" playlist_id]).
Proof.
  intros Hmeta Hitems.
  unfold update_playlist, try_except, bind, execute.
  rewrite Hmeta, Hitems. reflexivity.
Qed.

End NotFound.

(** C6, as the code has it. Whenever one of the client operations ends
    by raising, the exception is a [RuntimeError] and its message starts
    with the text of that operation: "Search failed: ", "Failed to create
    playlist: ", "Failed to add tracks: ", "Failed to retrieve playlist: ",
    "Failed to update playlist: ", "Failed to delete playlist: " or "Failed
    to get library playlists: ".  The failure kinds differ in that text
    only, not in the type of the error. *)
Theorem failures_are_RuntimeError (R : Remote) (op : operation) (l : log) (e : exn) :
  failure R op l = Some e ->
  exn_type e = RuntimeError
  /\ String.prefix (error_prefix op) (exn_str e) = true.
Proof.
  destruct op; cbn [failure error_prefix]; apply wrapped_failure.
Qed.

(** A failed delete on a remote that refuses it. *)
Lemma failures_are_RuntimeError_witness :
  let e := Exn RuntimeError "Failed to delete playlist: quotaExceeded" in
  failure Scenario.service (OpDelete "PLX") [] = Some e
  /\ exn_type e = RuntimeError
  /\ String.prefix "Failed to delete playlist: " (exn_str e) = true.
Proof.
  intros e.
  assert (H : failure Scenario.service (OpDelete "PLX") [] = Some e)
    by reflexivity.
  split; [exact H|].
  exact (failures_are_RuntimeError Scenario.service (OpDelete "PLX") [] e H).
Defined.

(** C6 as stated fails: a failed search and a failed delete raise errors
    of one and the same type, [RuntimeError]. *)
Lemma search_and_delete_errors_share_type :
  exists e1 e2,
    failure Scenario.down (OpSearch "Neu! Hallogallo" 20 "songs") [] = Some e1
    /\ failure Scenario.down (OpDelete "PLX") [] = Some e2
    /\ exn_type e1 = exn_type e2.
Proof. eexists _, _. vm_compute. repeat split. Qed.

(** ** C9: the tool dispatchers *)

(** *** Which computations cannot run out of fuel *)

Lemma terminates_ret {A} (a : A) : terminates (ret a).
Proof. intros l. discriminate. Qed.

Lemma terminates_raise {A} (e : exn) : terminates (@raise A e).
Proof. intros l. discriminate. Qed.

Lemma terminates_execute {A} c (answer : log -> exn + A) :
  terminates (execute c answer).
Proof. intros l. unfold execute. destruct (answer l); discriminate. Qed.

Lemma terminates_getitem {A} key (o : option A) : terminates (getitem key o).
Proof. intros l. destruct o; discriminate. Qed.

Lemma terminates_bind {A B} (m : M A) (k : A -> M B) :
  terminates m -> (forall a, terminates (k a)) -> terminates (bind m k).
Proof.
  intros Hm Hk l. unfold bind. specialize (Hm l).
  destruct (m l) as [[a|e|] l']; [apply Hk|discriminate|now destruct Hm].
Qed.

Lemma terminates_try {A} (m : M A) (h : exn -> M A) :
  terminates m -> (forall e, terminates (h e)) -> terminates (try_except m h).
Proof.
  intros Hm Hh l. unfold try_except. specialize (Hm l).
  destruct (m l) as [[a|e|] l']; [discriminate|apply Hh|now destruct Hm].
Qed.

Lemma terminates_if {A} (b : bool) (m1 m2 : M A) :
  terminates m1 -> terminates m2 -> terminates (if b then m1 else m2).
Proof. now destruct b. Qed.

Create HintDb fuel.
#[local] Hint Resolve terminates_ret terminates_raise terminates_execute
  terminates_getitem : fuel.

(** Take a computation apart along its binds, handlers and branches, and
    close the leaves from the hints. *)
Ltac terminating :=
  repeat match goal with
         | |- terminates (bind _ _) => apply terminates_bind; [|intro]
         | |- terminates (try_except _ _) => apply terminates_try; [|intro]
         | |- terminates (if _ then _ else _) => apply terminates_if
         end;
  auto with fuel.

Lemma terminates_search_tracks R query limit filter :
  terminates (search_tracks R query limit filter).
Proof. unfold search_tracks. terminating. Qed.

Lemma terminates_add_each R playlist_id video_ids :
  terminates (add_each R playlist_id video_ids).
Proof.
  induction video_ids; cbn [add_each]; unfold _add_video_to_playlist;
    terminating.
Qed.

Lemma terminates_create_playlist R title description privacy video_ids :
  terminates (create_playlist R title description privacy video_ids).
Proof.
  unfold create_playlist. terminating. apply terminates_add_each.
Qed.

Lemma terminates_add_playlist_items R playlist_id video_ids :
  terminates (add_playlist_items R playlist_id video_ids).
Proof.
  intros l. rewrite add_playlist_items_run. discriminate.
Qed.

Lemma terminates_search_and_add R playlist_id queries :
  terminates (search_and_add_to_playlist R playlist_id queries).
Proof.
  intros l. destruct (search_loop_run R queries empty_acc l) as (acc & Hloop & _).
  rewrite (search_and_add_run R playlist_id queries l acc _ Hloop).
  discriminate.
Qed.

Lemma terminates_delete_playlist R playlist_id :
  terminates (delete_playlist R playlist_id).
Proof. unfold delete_playlist. terminating. Qed.

Lemma terminates_get_library_playlists R limit :
  terminates (get_library_playlists R limit).
Proof. unfold get_library_playlists. terminating. Qed.

Lemma terminates_check_strs l : forall i, terminates (check_strs i l).
Proof.
  induction l as [|[s|] l IH]; intros i; cbn [check_strs]; terminating.
Qed.

Lemma terminates_join_opt sep l : terminates (join_opt sep l).
Proof. unfold join_opt. terminating. apply terminates_check_strs. Qed.

Lemma terminates_lines_of {A} (f : A -> M string) l :
  (forall a, terminates (f a)) -> terminates (lines_of f l).
Proof. intros Hf. induction l; cbn [lines_of]; terminating. Qed.

#[local] Hint Resolve terminates_search_tracks terminates_create_playlist
  terminates_add_playlist_items terminates_search_and_add
  terminates_delete_playlist terminates_get_library_playlists
  terminates_join_opt : fuel.

Lemma terminates_local_lines :
  (forall r, terminates (Server.search_line r))
  /\ (forall t, terminates (Server.added_line t))
  /\ (forall t, terminates (Server.track_line t))
  /\ (forall p, terminates (Server.library_line p)).
Proof.
  repeat split; intros x;
    unfold Server.search_line, Server.added_line, Server.track_line,
      Server.library_line; terminating.
Qed.

(** *** The [try] of the dispatchers *)

Lemma raised_bind {A B} (m : M A) (k : A -> M B) l e :
  raised (fst (m l)) = Some e -> raised (fst (bind m k l)) = Some e.
Proof. unfold bind. now destruct (m l) as [[a|e0|] l']. Qed.

(** The [except Exception] of [call_tool]: what the body raises comes
    back as text, and nothing is raised. *)
Lemma rendered (m : M (list TextContent)) l :
  let r := try_except m (fun e => ret (text ("Error: " +:+ exn_str e))) l in
  raised (fst r) = None
  /\ (forall e, raised (fst (m l)) = Some e ->
                fst r = Ret (text ("Error: " +:+ exn_str e)))
  /\ (fst (m l) <> OutOfFuel -> is_ret (fst r) = true).
Proof.
  unfold try_except, ret. destruct (m l) as [[a|e0|] l']; cbn.
  - repeat split; trivial. discriminate.
  - repeat split; trivial. now intros e [= ->].
  - repeat split; trivial; [discriminate|]. now intros [].
Qed.

(** Split on the next [if name == ...] of a dispatcher and run [tac] in
    the branch of that tool, unless the name is excluded by hypothesis. *)
Ltac branch name tac :=
  match goal with
  | |- context [String.eqb name ?tool] =>
      let H := fresh "Htool" in
      destruct (String.eqb name tool) eqn:H;
      [ try (apply String.eqb_eq in H; contradiction); tac | ]
  end.

Section Dispatch.
Variable fuel : nat.
Variable R : Remote.

Lemma local_body_terminates name args :
  name <> "get_playlist_details" ->
  terminates (Server.call_tool_body fuel R name args).
Proof.
  intros Hname. unfold Server.call_tool_body.
  destruct terminates_local_lines as (Hsearch & Hadded & Htrack & Hlibrary).
  repeat branch name
    ltac:(terminating; apply terminates_lines_of; assumption).
  terminating.
Qed.

Lemma remote_body_terminates name args :
  name <> "get_playlist_details" ->
  terminates (ServerRemote.call_tool_body fuel R name args).
Proof.
  intros Hname. unfold ServerRemote.call_tool_body.
  repeat branch name ltac:(terminating).
  terminating.
Qed.

Ltac operation_raises :=
  cbn [mbind option_bind mret option_ret];
  repeat match goal with
         | |- context [arg_query ?a] => destruct (arg_query a); cbn
         | |- context [arg_title ?a] => destruct (arg_title a); cbn
         | |- context [arg_playlist_id ?a] => destruct (arg_playlist_id a); cbn
         | |- context [getitem _ (arg_video_ids ?a)] =>
             destruct (arg_video_ids a); cbn
         end;
  try discriminate;
  intros [= <-]; cbn [failure]; rewrite ?bind_ret_l;
  apply raised_bind.

(** When the client operation behind a tool raises, so does the body of
    the dispatcher's [try], with the same exception. *)
Lemma local_operation_raises name args l op e :
  local_tool_operation fuel name args = Some op ->
  failure R op l = Some e ->
  raised (fst (Server.call_tool_body fuel R name args l)) = Some e.
Proof.
  unfold local_tool_operation, Server.call_tool_body.
  repeat branch name ltac:(operation_raises). discriminate.
Qed.

Lemma remote_operation_raises name args l op e :
  remote_tool_operation fuel name args = Some op ->
  failure R op l = Some e ->
  raised (fst (ServerRemote.call_tool_body fuel R name args l)) = Some e.
Proof.
  unfold remote_tool_operation, ServerRemote.call_tool_body.
  repeat branch name ltac:(operation_raises). discriminate.
Qed.

End Dispatch.

(** *** Enough fuel for the pagination of [get_playlist_details] *)

Lemma fetch_pages_ends (R : Remote) playlist_id limit n :
  forall fuel l token tracks,
    pagination_ends n R playlist_id l token ->
    (n < fuel)%nat ->
    fst (fetch_pages fuel R playlist_id limit token tracks l) <> OutOfFuel.
Proof.
  induction n as [|n IH]; intros fuel l token tracks Hends Hfuel;
    (destruct fuel as [|fuel]; [lia|]);
    cbn [fetch_pages pagination_ends] in *; unfold bind, execute;
    destruct (playlistItems_list R l playlist_id 50 token) as [e|page];
    try discriminate;
    destruct (Py.truthy_str (ir_nextPageToken page)); cbn [negb orb];
    try discriminate; try contradiction.
  destruct (limit_reached limit _); [discriminate|].
  apply IH; [exact Hends|lia].
Qed.

Lemma get_playlist_ends (R : Remote) playlist_id limit n fuel l :
  pagination_ends n R playlist_id (l ++ [metadata_call playlist_id]) None ->
  (n < fuel)%nat ->
  fst (get_playlist fuel R playlist_id limit l) <> OutOfFuel.
Proof.
  intros Hends Hfuel.
  pose proof (fetch_pages_ends R playlist_id limit n fuel _ None [] Hends Hfuel)
    as Hfetch.
  unfold metadata_call in Hfetch.
  unfold get_playlist, try_except, bind at 1, execute.
  destruct (playlists_list_id R l _ _) as [e|response]; [discriminate|].
  destruct (default [] (plr_items response)) as [|info others]; [discriminate|].
  unfold bind.
  destruct (fetch_pages _ _ _ _ _ _ _) as [[tracks|e|] l1]; try discriminate.
  now destruct Hfetch.
Qed.

Lemma bind_not_cut {A B} (m : M A) (k : A -> M B) l :
  fst (m l) <> OutOfFuel -> (forall a, terminates (k a)) ->
  fst (bind m k l) <> OutOfFuel.
Proof.
  intros Hm Hk. unfold bind.
  destruct (m l) as [[a|e|] l']; [apply Hk|discriminate|now destruct Hm].
Qed.

Section DetailsReturn.
Variable fuel : nat.
Variable R : Remote.

(** The bodies of both dispatchers are not cut by fuel when the
    pagination behind [get_playlist_details] ends soon enough; for every
    other tool nothing is asked of the remote. *)
Lemma bodies_not_cut name args l n :
  (forall playlist_id, arg_playlist_id args = Some playlist_id ->
     pagination_ends n R playlist_id (l ++ [metadata_call playlist_id]) None) ->
  (n < fuel)%nat ->
  fst (Server.call_tool_body fuel R name args l) <> OutOfFuel
  /\ fst (ServerRemote.call_tool_body fuel R name args l) <> OutOfFuel.
Proof.
  intros Hends Hfuel.
  destruct (String.eqb_spec name "get_playlist_details") as [->|Hname].
  - unfold Server.call_tool_body, ServerRemote.call_tool_body.
    cbn [String.eqb Ascii.eqb Bool.eqb].
    destruct (arg_playlist_id args) as [playlist_id|] eqn:Hid;
      [|split; discriminate].
    unfold getitem. rewrite !bind_ret_l.
    specialize (Hends playlist_id eq_refl).
    pose proof (get_playlist_ends R playlist_id None n fuel l Hends Hfuel)
      as Hget.
    split; (apply bind_not_cut; [exact Hget|intro]).
    + terminating. apply terminates_lines_of.
      intros t. unfold Server.track_line. terminating.
    + terminating.
  - split; [now apply local_body_terminates|now apply remote_body_terminates].
Qed.

End DetailsReturn.

(** C9. For every tool name, arguments and remote, and for both
    dispatchers: [call_tool] never ends by raising; when the client
    operation behind the tool raises [e], and more generally when
    anything inside the [try] raises [e], [call_tool] returns the single
    text ["Error: " + str(e)]; and [call_tool] returns a result whenever
    its body is not cut short by the pagination loop of
    [get_playlist_details], so always for every other tool name, and for
    [get_playlist_details] with enough fuel whenever the pagination of
    the remote comes to an end: if within [n] further requests after the
    first a request fails or a page carries no continuation token, any
    fuel above [n] gives a result. *)
Theorem call_tool_renders_errors (fuel : nat) (R : Remote) (name : string)
    (args : arguments) (l : log) :
  let local := fst (Server.call_tool fuel R name args l) in
  let remote := fst (ServerRemote.call_tool fuel R name args l) in
  let local_body := fst (Server.call_tool_body fuel R name args l) in
  let remote_body := fst (ServerRemote.call_tool_body fuel R name args l) in
  (raised local = None /\ raised remote = None)
  /\ (forall op e,
        local_tool_operation fuel name args = Some op ->
        failure R op l = Some e ->
        local = Ret (text ("Error: " +:+ exn_str e)))
  /\ (forall op e,
        remote_tool_operation fuel name args = Some op ->
        failure R op l = Some e ->
        remote = Ret (text ("Error: " +:+ exn_str e)))
  /\ (forall e, raised local_body = Some e ->
                local = Ret (text ("Error: " +:+ exn_str e)))
  /\ (forall e, raised remote_body = Some e ->
                remote = Ret (text ("Error: " +:+ exn_str e)))
  /\ (local_body <> OutOfFuel -> is_ret local = true)
  /\ (remote_body <> OutOfFuel -> is_ret remote = true)
  /\ (name <> "get_playlist_details" ->
      is_ret local = true /\ is_ret remote = true)
  /\ (forall n,
        (forall playlist_id, arg_playlist_id args = Some playlist_id ->
           pagination_ends n R playlist_id
             (l ++ [metadata_call playlist_id]) None) ->
        (n < fuel)%nat ->
        is_ret local = true /\ is_ret remote = true).
Proof.
  intros local remote local_body remote_body.
  destruct (rendered (Server.call_tool_body fuel R name args) l)
    as (Hl1 & Hl2 & Hl3).
  destruct (rendered (ServerRemote.call_tool_body fuel R name args) l)
    as (Hr1 & Hr2 & Hr3).
  split; [split; assumption|].
  split. { intros op e Hop He. apply Hl2.
           exact (local_operation_raises fuel R name args l op e Hop He). }
  split. { intros op e Hop He. apply Hr2.
           exact (remote_operation_raises fuel R name args l op e Hop He). }
  split; [exact Hl2|]. split; [exact Hr2|].
  split; [exact Hl3|]. split; [exact Hr3|].
  split.
  { intros Hname. split.
    - apply Hl3. now apply local_body_terminates.
    - apply Hr3. now apply remote_body_terminates. }
  intros n Hends Hfuel.
  destruct (bodies_not_cut fuel R name args l n Hends Hfuel) as [Hlb Hrb].
  split; [apply Hl3, Hlb|apply Hr3, Hrb].
Qed.

(** A search on a remote that is down: both dispatchers answer with the
    text of the error.  The details of a playlist of three pages: the
    pagination ends two requests after the first, and fuel 3 gives a
    result in both dispatchers. *)
Lemma call_tool_renders_errors_witness :
  let args :=
    {| arg_query := Some "Neu! Hallogallo"; arg_limit := None;
       arg_filter := None; arg_title := None; arg_description := None;
       arg_privacy_status := None; arg_video_ids := None;
       arg_playlist_id := None; arg_search_queries := None;
       arg_queries := None |} in
  let e := Exn RuntimeError "Search failed: quotaExceeded" in
  let details :=
    {| arg_query := None; arg_limit := None;
       arg_filter := None; arg_title := None; arg_description := None;
       arg_privacy_status := None; arg_video_ids := None;
       arg_playlist_id := Some "PL1"; arg_search_queries := None;
       arg_queries := None |} in
  failure Scenario.down (OpSearch "Neu! Hallogallo" 20 "songs") [] = Some e
  /\ fst (Server.call_tool 0 Scenario.down "search_youtube_music" args [])
     = Ret (text "Error: Search failed: quotaExceeded")
  /\ fst (ServerRemote.call_tool 0 Scenario.down "search_youtube_music" args [])
     = Ret (text "Error: Search failed: quotaExceeded")
  /\ pagination_ends 2 Scenario.service "PL1" [metadata_call "PL1"] None
  /\ is_ret (fst (Server.call_tool 3 Scenario.service "get_playlist_details"
                    details [])) = true
  /\ is_ret (fst (ServerRemote.call_tool 3 Scenario.service
                    "get_playlist_details" details [])) = true.
Proof.
  intros args e details.
  assert (He : failure Scenario.down (OpSearch "Neu! Hallogallo" 20 "songs") []
               = Some e) by reflexivity.
  destruct (call_tool_renders_errors 0 Scenario.down "search_youtube_music"
              args []) as (_ & Hlocal & Hremote & _).
  assert (Hends : pagination_ends 2 Scenario.service "PL1"
                    [metadata_call "PL1"] None) by (cbn; exact I).
  destruct (call_tool_renders_errors 3 Scenario.service "get_playlist_details"
              details []) as (_ & _ & _ & _ & _ & _ & _ & _ & Hdetails).
  destruct (Hdetails 2%nat) as [Hdl Hdr]; [|lia|].
  { intros playlist_id [= <-]. exact Hends. }
  split; [exact He|]. split; [exact (Hlocal _ e eq_refl He)|].
  split; [exact (Hremote _ e eq_refl He)|].
  split; [exact Hends|]. split; [exact Hdl|exact Hdr].
Defined.

(** An unknown tool name: [src/server.py] raises and renders the
    [ValueError]; [src/server_remote.py] answers without raising. *)
Example unknown_tool :
  fst (Server.call_tool 0 Scenario.down "nope" Scenario.no_arguments [])
    = Ret (text "Error: Unknown tool: nope")
  /\ fst (ServerRemote.call_tool 0 Scenario.down "nope" Scenario.no_arguments [])
    = Ret (text "Unknown tool: nope").
Proof. split; reflexivity. Qed.

(** A required argument that is missing: the [KeyError] is rendered. *)
Example missing_argument :
  fst (Server.call_tool 0 Scenario.down "search_youtube_music"
         Scenario.no_arguments [])
    = Ret (text "Error: 'query'").
Proof. reflexivity. Qed.

(** ** C10: the overlay of [update_playlist] *)

Lemma overlay_title title description (snippet : snippet_dict) :
  overlay title description snippet !! "title" =
  match title with
  | Some t => if String.eqb t "" then snippet !! "title" else Some (JStr t)
  | None => snippet !! "title"
  end.
Proof.
  unfold overlay.
  assert (Hd : forall s : snippet_dict,
             match description with
             | Some d => <["description" := JStr d]> s
             | None => s
             end !! "title" = s !! "title").
  { intros s. destruct description; [|reflexivity].
    now rewrite lookup_insert_ne. }
  rewrite Hd. destruct title as [t|]; cbn; [|reflexivity].
  destruct (String.eqb t ""); cbn; [reflexivity|].
  now rewrite lookup_insert_eq.
Qed.

Lemma overlay_description title description (snippet : snippet_dict) :
  overlay title description snippet !! "description" =
  match description with
  | Some d => Some (JStr d)
  | None => snippet !! "description"
  end.
Proof.
  unfold overlay. destruct description as [d|].
  - now rewrite lookup_insert_eq.
  - destruct (Py.truthy_str title); [|reflexivity].
    now rewrite lookup_insert_ne.
Qed.

Lemma overlay_other title description (snippet : snippet_dict) key :
  key <> "title" -> key <> "description" ->
  overlay title description snippet !! key = snippet !! key.
Proof.
  intros Ht Hd. unfold overlay.
  destruct description as [d|]; rewrite ?lookup_insert_ne by congruence;
    destruct (Py.truthy_str title); rewrite ?lookup_insert_ne by congruence;
    reflexivity.
Qed.

Section Update.
Variable R : Remote.
Variable playlist_id : string.

(** The two remote calls of [update_playlist] on a playlist that
    exists. *)
Lemma update_playlist_log title description l current playlist others snippet :
  playlists_list_id R l "snippet,status" playlist_id = inr current ->
  plr_items current = Some (playlist :: others) ->
  pr_snippet playlist = Some snippet ->
  snd (update_playlist R playlist_id title description l) =
  l ++ [ PlaylistsListId "snippet,status" playlist_id;
         PlaylistsUpdate
           {| ub_id := playlist_id;
              ub_snippet := overlay title description snippet;
              ub_status := default (JRaw "{}" false) (pr_status playlist) |} ].
Proof.
  intros Hlist Hitems Hsnippet.
  unfold update_playlist, try_except, bind at 1, execute.
  rewrite Hlist, Hitems. cbn [default from_option id].
  rewrite Hsnippet. unfold getitem at 1. rewrite bind_ret_l.
  unfold bind at 1.
  destruct (playlists_update R _ _) as [e|result]; cbn [raise snd];
    [now rewrite <- app_assoc|].
  unfold bind, getitem, ret, raise.
  rewrite <- app_assoc.
  destruct (pr_snippet result) as [rs|]; [|reflexivity].
  destruct (rs !! "title"); [|reflexivity].
  destruct (rs !! "description"); reflexivity.
Qed.

(** C10. On a playlist that exists, the snippet that [update_playlist]
    sends back to the remote has: under ["title"], the stored title when
    the [title] argument is [None] or the empty string and the argument
    otherwise; under ["description"], the stored description when the
    [description] argument is [None] and the argument otherwise, the
    empty string included; and under every other key what was stored. *)
Theorem update_playlist_overlay title description l current playlist others
    snippet :
  playlists_list_id R l "snippet,status" playlist_id = inr current ->
  plr_items current = Some (playlist :: others) ->
  pr_snippet playlist = Some snippet ->
  exists body,
    snd (update_playlist R playlist_id title description l) =
      l ++ [ PlaylistsListId "snippet,status" playlist_id; PlaylistsUpdate body ]
    /\ ub_snippet body !! "title" =
       match title with
       | Some t => if String.eqb t "" then snippet !! "title" else Some (JStr t)
       | None => snippet !! "title"
       end
    /\ ub_snippet body !! "description" =
       match description with
       | Some d => Some (JStr d)
       | None => snippet !! "description"
       end
    /\ forall key, key <> "title" -> key <> "description" ->
                   ub_snippet body !! key = snippet !! key.
Proof.
  intros Hlist Hitems Hsnippet.
  eexists. split.
  { exact (update_playlist_log title description l current playlist others
             snippet Hlist Hitems Hsnippet). }
  cbn [ub_snippet].
  split; [apply overlay_title|].
  split; [apply overlay_description|].
  intros key. apply overlay_other.
Qed.

End Update.

(** Both arguments the empty string: the title written back is the
    stored one, the description written back is empty. *)
Lemma update_playlist_overlay_witness :
  exists body,
    snd (update_playlist Scenario.service "PL1" (Some "") (Some "") []) =
      [ PlaylistsListId "snippet,status" "PL1"; PlaylistsUpdate body ]
    /\ ub_snippet body !! "title" = Some (JStr "Neu! 1972")
    /\ ub_snippet body !! "description" = Some (JStr "")
    /\ ub_snippet body !! "channelId" = Some (JStr "UC1").
Proof.
  destruct (update_playlist_overlay Scenario.service "PL1" (Some "") (Some "") []
              {| plr_items := Some [Scenario.the_playlist] |}
              Scenario.the_playlist [] Scenario.the_snippet
              eq_refl eq_refl eq_refl)
    as (body & Hlog & Htitle & Hdescription & Hother).
  exists body. split; [exact Hlog|].
  split; [exact Htitle|]. split; [exact Hdescription|].
  rewrite Hother by discriminate. reflexivity.
Defined.

(** ** Runs on the concrete remotes *)

Example search_request_appends_music :
  snd (search_tracks Scenario.service "Neu! Hallogallo" 100 "songs" []) =
  [SearchList "Neu! Hallogallo music" "video" 50 (Some "10")].
Proof. reflexivity. Qed.

Example search_request_keeps_music :
  snd (search_tracks Scenario.service "Techno MUSIC mix" 5 "songs" []) =
  [SearchList "Techno MUSIC mix" "video" 5 (Some "10")].
Proof. reflexivity. Qed.

(** The test is a substring test: "Musical" counts as containing
    "music". *)
Example search_request_substring :
  snd (search_tracks Scenario.service "Musical hits" 5 "songs" []) =
  [SearchList "Musical hits" "video" 5 (Some "10")].
Proof. reflexivity. Qed.

Example search_request_playlists :
  snd (search_tracks Scenario.service "krautrock" 20 "playlists" []) =
  [SearchList "krautrock" "playlist" 20 None].
Proof. reflexivity. Qed.

(** The second of three inserts is refused: two are added, three were
    requested. *)
Example add_playlist_items_partial :
  add_playlist_items Scenario.service "PL1" ["v1"; "bad"; "v3"] [] =
  (Ret {| ar_status := "success"; ar_playlistId := "PL1";
          ar_addedCount := 2; ar_requestedCount := 3 |},
   [ PlaylistItemsInsert "PL1" "v1"; PlaylistItemsInsert "PL1" "bad";
     PlaylistItemsInsert "PL1" "v3" ]).
Proof. reflexivity. Qed.

(** [create_playlist] with two initial videos: one create call, then the
    two inserts in order. *)
Example create_playlist_scenario :
  snd (create_playlist Scenario.service "T" "" "private" (Some ["v1"; "v2"]) []) =
  [ PlaylistsInsert "T" "" "private";
    PlaylistItemsInsert "PL2" "v1"; PlaylistItemsInsert "PL2" "v2" ].
Proof. reflexivity. Qed.

(** A delete that the remote refuses surfaces as an error. *)
Example delete_playlist_scenario :
  fst (delete_playlist Scenario.service "PLX" []) =
  Raise (Exn RuntimeError "Failed to delete playlist: quotaExceeded").
Proof. reflexivity. Qed.

(** A cap of zero does not cap: all three pages are fetched. *)
Example get_playlist_zero_cap :
  exists result l',
    get_playlist 3 Scenario.service "PL1" (Some 0) [] = (Ret result, l')
    /\ length (pl_tracks result) = 5%nat.
Proof. eexists _, _. split; reflexivity. Qed.

(** Without fuel for the next page the loop is cut, which is neither a
    result nor an error. *)
Example get_playlist_cut :
  fst (get_playlist 2 Scenario.service "PL1" None []) = OutOfFuel.
Proof. reflexivity. Qed.

(** * Further properties of the client *)

(** ** [search_tracks]: filters and normalization *)

Lemma type_map_video filter :
  filter <> "playlists" -> default "video" (type_map !! filter) = "video".
Proof.
  intros Hp. unfold type_map.
  destruct (decide (filter = "songs")) as [->|Hs]; [reflexivity|].
  rewrite lookup_insert_ne by congruence.
  destruct (decide (filter = "videos")) as [->|Hv]; [reflexivity|].
  rewrite lookup_insert_ne by congruence.
  rewrite lookup_insert_ne by congruence.
  reflexivity.
Qed.

(** X1. A filter other than "songs" and "playlists" (so "albums",
    "artists" or anything else) is searched exactly as "videos": the same
    remote call and the same result. *)
Theorem search_tracks_other_filter (R : Remote) query limit filter l :
  filter <> "songs" -> filter <> "playlists" ->
  search_tracks R query limit filter l = search_tracks R query limit "videos" l.
Proof.
  intros Hs Hp. rewrite !search_tracks_run.
  rewrite (type_map_video filter Hp).
  unfold search_query_of.
  apply String.eqb_neq in Hs. rewrite Hs. reflexivity.
Qed.

Lemma search_tracks_other_filter_witness :
  search_tracks Scenario.service "Neu!" 10 "albums" [] =
  search_tracks Scenario.service "Neu!" 10 "videos" [].
Proof.
  apply (search_tracks_other_filter Scenario.service "Neu!" 10 "albums" []);
    discriminate.
Defined.

Lemma substring_length n : forall s, (String.length (String.substring 0 n s) <= n)%nat.
Proof.
  induction n as [|n IH]; intros [|c s]; cbn; try lia.
  specialize (IH s). lia.
Qed.

(** X2. When [search_tracks] returns, the remote answered, there is one
    result per item of the answer, in the order of the answer (titles
    match position by position), every result has exactly one artist
    entry, and every description has at most 200 characters. *)
Theorem search_tracks_results (R : Remote) query limit filter l results l' :
  search_tracks R query limit filter l = (Ret results, l') ->
  exists response,
    search_list R l (search_query_of query filter)
      (default "video" (type_map !! filter)) (Z.min limit 50)
      (if String.eqb filter "songs" then Some "10" else None) = inr response
    /\ length results = length (default [] (sr_items response))
    /\ map t_title results =
       map (fun item => si_snippet item ≫= ss_title)
         (default [] (sr_items response))
    /\ Forall (fun t => length (t_artists t) = 1%nat
                        /\ (String.length (t_description t) <= 200)%nat)
         results.
Proof.
  rewrite search_tracks_run.
  destruct (search_list R l _ _ _ _) as [e|response]; intros [= <- _].
  exists response. split; [reflexivity|].
  rewrite length_map, map_map. split; [reflexivity|]. split; [reflexivity|].
  apply Forall_map, Forall_forall. intros item _. cbn.
  split; [reflexivity|apply substring_length].
Qed.

Lemma search_tracks_results_witness :
  exists results l',
    search_tracks Scenario.service "Neu! Hallogallo" 5 "songs" [] = (Ret results, l')
    /\ length results = 1%nat.
Proof.
  eexists _, _. split; [reflexivity|].
  destruct (search_tracks_results Scenario.service "Neu! Hallogallo" 5 "songs" []
              _ _ eq_refl) as (response & Hr & Hlen & _).
  vm_compute in Hr. injection Hr as <-. exact Hlen.
Defined.

(** ** [create_playlist] *)

Section Create.
Variable R : Remote.

Lemma add_each_run playlist_id video_ids : forall l,
  add_each R playlist_id video_ids l =
  (match refusal R playlist_id l video_ids with
   | Some e => Raise e
   | None => Ret tt
   end,
   l ++ map (PlaylistItemsInsert playlist_id)
          (attempted R playlist_id l video_ids)).
Proof.
  induction video_ids as [|v rest IH]; intros l; cbn [add_each refusal attempted map].
  - unfold ret. now rewrite app_nil_r.
  - unfold bind, _add_video_to_playlist, execute.
    destruct (playlistItems_insert R l playlist_id v) as [e|[]].
    + reflexivity.
    + rewrite IH, <- app_assoc. reflexivity.
Qed.

Lemma attempted_prefix playlist_id video_ids : forall l,
  attempted R playlist_id l video_ids `prefix_of` video_ids.
Proof.
  induction video_ids as [|v rest IH]; intros l; cbn [attempted].
  - reflexivity.
  - destruct (playlistItems_insert R l playlist_id v).
    + now exists rest.
    + apply prefix_cons, IH.
Qed.

Lemma attempted_all playlist_id video_ids : forall l,
  refusal R playlist_id l video_ids = None ->
  attempted R playlist_id l video_ids = video_ids.
Proof.
  induction video_ids as [|v rest IH]; intros l; cbn [attempted refusal].
  - reflexivity.
  - destruct (playlistItems_insert R l playlist_id v); [discriminate|].
    intros H. now rewrite IH.
Qed.

(** What [create_playlist] does once the remote has created the
    playlist and named it. *)
Lemma create_playlist_run title description privacy_status video_ids l response
    playlist_id :
  playlists_insert R l title description (Py.lower privacy_status) = inr response ->
  pr_id response = Some playlist_id ->
  let created := l ++ [PlaylistsInsert title description (Py.lower privacy_status)] in
  create_playlist R title description privacy_status video_ids l =
  (match refusal R playlist_id created (default [] video_ids) with
   | Some e => Raise (Exn RuntimeError ("Failed to create playlist: " +:+ exn_str e))
   | None =>
       Ret {| cr_playlistId := playlist_id;
              cr_title := title;
              cr_status := "created";
              cr_url := "https://www.youtube.com/playlist?list=" +:+ playlist_id |}
   end,
   created ++ map (PlaylistItemsInsert playlist_id)
                (attempted R playlist_id created (default [] video_ids))).
Proof.
  intros Hinsert Hid created.
  unfold create_playlist, try_except, bind at 1, execute.
  rewrite Hinsert, Hid. unfold getitem. rewrite bind_ret_l.
  fold created. unfold bind.
  destruct (default [] video_ids) as [|v rest] eqn:Hids; cbn [Py.truthy_list].
  - cbn. now rewrite app_nil_r.
  - rewrite add_each_run.
    destruct (refusal R playlist_id created (v :: rest)); reflexivity.
Qed.

(** X3. When the remote creates the playlist and accepts every initial
    video, [create_playlist] returns the new id, the title, the status
    "created" and the url [https://www.youtube.com/playlist?list=<id>];
    its remote calls are the create call followed by one insert per
    initial video, in the order given (none when [video_ids] is [None] or
    empty). *)
Theorem create_playlist_success title description privacy_status video_ids l
    response playlist_id :
  playlists_insert R l title description (Py.lower privacy_status) = inr response ->
  pr_id response = Some playlist_id ->
  refusal R playlist_id
    (l ++ [PlaylistsInsert title description (Py.lower privacy_status)])
    (default [] video_ids) = None ->
  create_playlist R title description privacy_status video_ids l =
  (Ret {| cr_playlistId := playlist_id;
          cr_title := title;
          cr_status := "created";
          cr_url := "https://www.youtube.com/playlist?list=" +:+ playlist_id |},
   (l ++ [PlaylistsInsert title description (Py.lower privacy_status)])
   ++ map (PlaylistItemsInsert playlist_id) (default [] video_ids)).
Proof.
  intros Hinsert Hid Hnone.
  rewrite (create_playlist_run _ _ _ _ _ _ _ Hinsert Hid).
  now rewrite Hnone, attempted_all.
Qed.

Lemma refusal_split playlist_id video_ids e : forall l,
  refusal R playlist_id l video_ids = Some e ->
  exists before refused after,
    video_ids = before ++ refused :: after
    /\ attempted R playlist_id l video_ids = before ++ [refused]
    /\ refusal R playlist_id l before = None
    /\ playlistItems_insert R
         (l ++ map (PlaylistItemsInsert playlist_id) before)
         playlist_id refused = inl e.
Proof.
  induction video_ids as [|v rest IH]; intros l; cbn [refusal attempted];
    [discriminate|].
  destruct (playlistItems_insert R l playlist_id v) as [e0|[]] eqn:Hv.
  - intros [= ->]. exists [], v, rest. cbn. rewrite app_nil_r. auto.
  - intros Hrest.
    destruct (IH _ Hrest) as (before & refused & after & -> & Hatt & Hnone & Hbad).
    exists (v :: before), refused, after. cbn [app refusal map].
    rewrite Hv, Hatt. rewrite <- app_assoc in Hbad. auto.
Qed.

(** X4. When the remote refuses one of the initial videos with [e],
    [create_playlist] raises [RuntimeError("Failed to create playlist: "
    + str(e))].  The list of initial videos splits into the videos
    before the refused one, all accepted, the refused one, and the
    videos after it; the remote calls are the create call and one insert
    for each video up to and including the refused one, in order: the
    videos after it are never tried, and nothing undoes the create call
    or the inserts before it. *)
Theorem create_playlist_stops_at_refusal title description privacy_status
    video_ids l response playlist_id e :
  playlists_insert R l title description (Py.lower privacy_status) = inr response ->
  pr_id response = Some playlist_id ->
  refusal R playlist_id
    (l ++ [PlaylistsInsert title description (Py.lower privacy_status)])
    (default [] video_ids) = Some e ->
  exists tried,
    create_playlist R title description privacy_status video_ids l =
    (Raise (Exn RuntimeError ("Failed to create playlist: " +:+ exn_str e)),
     (l ++ [PlaylistsInsert title description (Py.lower privacy_status)])
     ++ map (PlaylistItemsInsert playlist_id) tried)
    /\ tried `prefix_of` default [] video_ids
    /\ tried <> []
    /\ exists before refused after,
         default [] video_ids = before ++ refused :: after
         /\ tried = before ++ [refused]
         /\ refusal R playlist_id
              (l ++ [PlaylistsInsert title description (Py.lower privacy_status)])
              before = None
         /\ playlistItems_insert R
              ((l ++ [PlaylistsInsert title description (Py.lower privacy_status)])
               ++ map (PlaylistItemsInsert playlist_id) before)
              playlist_id refused = inl e.
Proof.
  intros Hinsert Hid Hsome.
  eexists. split.
  { rewrite (create_playlist_run _ _ _ _ _ _ _ Hinsert Hid).
    now rewrite Hsome. }
  split; [apply attempted_prefix|].
  destruct (refusal_split _ _ _ _ Hsome)
    as (before & refused & after & Hids & Hatt & Hnone & Hbad).
  split.
  - rewrite Hatt. now destruct before.
  - exists before, refused, after. auto.
Qed.

(** X5. When the answer to the create call carries no ["id"],
    [create_playlist] raises [RuntimeError("Failed to create playlist:
    'id'")] right after the create call; no video is inserted. *)
Theorem create_playlist_without_id title description privacy_status video_ids l
    response :
  playlists_insert R l title description (Py.lower privacy_status) = inr response ->
  pr_id response = None ->
  create_playlist R title description privacy_status video_ids l =
  (Raise (Exn RuntimeError "Failed to create playlist: 'id'"),
   l ++ [PlaylistsInsert title description (Py.lower privacy_status)]).
Proof.
  intros Hinsert Hid.
  unfold create_playlist, try_except, bind at 1, execute.
  rewrite Hinsert, Hid. reflexivity.
Qed.

End Create.

Lemma create_playlist_success_witness :
  create_playlist Scenario.service "T" "" "PRIVATE" (Some ["v1"; "v2"]) [] =
  (Ret {| cr_playlistId := "PL2"; cr_title := "T"; cr_status := "created";
          cr_url := "https://www.youtube.com/playlist?list=PL2" |},
   [ PlaylistsInsert "T" "" "private";
     PlaylistItemsInsert "PL2" "v1"; PlaylistItemsInsert "PL2" "v2" ]).
Proof.
  exact (create_playlist_success Scenario.service "T" "" "PRIVATE"
           (Some ["v1"; "v2"]) [] _ "PL2" eq_refl eq_refl eq_refl).
Defined.

(** The second of three videos is refused: the third is never tried. *)
Lemma create_playlist_stops_at_refusal_witness :
  create_playlist Scenario.service "T" "" "private" (Some ["v1"; "bad"; "v3"]) [] =
  (Raise (Exn RuntimeError "Failed to create playlist: quotaExceeded"),
   [ PlaylistsInsert "T" "" "private";
     PlaylistItemsInsert "PL2" "v1"; PlaylistItemsInsert "PL2" "bad" ]).
Proof.
  destruct (create_playlist_stops_at_refusal Scenario.service "T" "" "private"
              (Some ["v1"; "bad"; "v3"]) [] _ "PL2" Scenario.http_error
              eq_refl eq_refl eq_refl)
    as (tried & Hrun & _ & _ & before & refused & after & Hids & Htried & Hnone
        & Hbad).
  rewrite Hrun. clear Hrun. cbn [default from_option id] in Hids.
  destruct before as [|b0 [|b1 [|b2 before]]]; cbn [app] in Hids;
    simplify_eq; try (now destruct before);
    try (vm_compute in Hbad; discriminate);
    try (vm_compute in Hnone; discriminate).
  reflexivity.
Defined.

Lemma create_playlist_without_id_witness :
  create_playlist Edge.terse "T" "" "private" (Some ["v1"]) [] =
  (Raise (Exn RuntimeError "Failed to create playlist: 'id'"),
   [PlaylistsInsert "T" "" "private"]).
Proof.
  exact (create_playlist_without_id Edge.terse "T" "" "private" (Some ["v1"]) []
           _ eq_refl eq_refl).
Defined.

(** ** [get_playlist]: bounds and failures *)

Lemma collect_items_negative n items tracks :
  n < 0 ->
  collect_items (Some n) items tracks =
  tracks ++ map playlist_track_of (firstn 1 items).
Proof.
  intros Hn. destruct items as [|item rest]; cbn [collect_items firstn map].
  - now rewrite app_nil_r.
  - unfold limit_reached.
    destruct (Z.eqb_spec n 0); [lia|].
    destruct (Z.leb_spec n (Z.of_nat (length (tracks ++ [playlist_track_of item]))));
      [reflexivity|lia].
Qed.

Section PaginationMore.
Variable R : Remote.
Variable playlist_id : string.

(** When [get_playlist] returns, the pagination loop returned its
    tracks, and the other fields come from the metadata. *)
Lemma get_playlist_returns fuel limit l result l' :
  get_playlist fuel R playlist_id limit l = (Ret result, l') ->
  exists response info others,
    playlists_list_id R l "snippet,contentDetails" playlist_id = inr response
    /\ default [] (plr_items response) = info :: others
    /\ fetch_pages fuel R playlist_id limit None []
         (l ++ [metadata_call playlist_id]) = (Ret (pl_tracks result), l')
    /\ pl_id result = playlist_id
    /\ pl_trackCount result =
       default 0 (pr_contentDetails info ≫= cd_itemCount).
Proof.
  unfold get_playlist, try_except, bind at 1, execute, metadata_call.
  destruct (playlists_list_id R l _ _) as [e|response]; [discriminate|].
  destruct (default [] (plr_items response)) as [|info others] eqn:Hitems;
    [discriminate|].
  unfold bind.
  destruct (fetch_pages _ _ _ _ _ _ _) as [[tracks|e|] l1]; try discriminate.
  intros [= <- <-]. exists response, info, others. auto.
Qed.

Lemma fetch_pages_bound n fuel : forall token tracks l tracks' l',
  1 <= n ->
  (length tracks < Z.to_nat n)%nat ->
  fetch_pages fuel R playlist_id (Some n) token tracks l = (Ret tracks', l') ->
  (length tracks' <= Z.to_nat n)%nat.
Proof.
  induction fuel as [|fuel IH]; intros token tracks l tracks' l' Hn Hlt;
    [discriminate|].
  cbn [fetch_pages]. unfold bind, execute.
  destruct (playlistItems_list R l _ _ _) as [e|page]; [discriminate|].
  rewrite collect_items_cap by trivial.
  rewrite limit_reached_cap by trivial.
  set (tracks1 := tracks ++ map playlist_track_of _).
  assert (Hlen : (length tracks1 <= Z.to_nat n)%nat).
  { unfold tracks1. rewrite length_app, length_map, length_firstn. lia. }
  destruct (Nat.leb_spec (Z.to_nat n) (length tracks1)) as [Hge|Hlt1].
  - rewrite orb_true_r. now intros [= <- _].
  - rewrite orb_false_r.
    destruct (Py.truthy_str _); cbn [negb]; [|now intros [= <- _]].
    now apply IH.
Qed.

(** X6. Whatever the remote answers, when [get_playlist] returns under a
    cap [n >= 1] it returns at most [n] tracks. *)
Theorem get_playlist_at_most_cap n fuel l result l' :
  1 <= n ->
  get_playlist fuel R playlist_id (Some n) l = (Ret result, l') ->
  Z.of_nat (length (pl_tracks result)) <= n.
Proof.
  intros Hn Hrun.
  destruct (get_playlist_returns _ _ _ _ _ Hrun)
    as (response & info & others & _ & _ & Hfetch & _).
  apply fetch_pages_bound in Hfetch; [lia|exact Hn|cbn; lia].
Qed.

(** X7. A cap of zero is no cap: [get_playlist] with [limit=0] makes the
    same calls and returns the same as with [limit=None]. *)
Theorem get_playlist_zero_cap_is_no_cap fuel l :
  get_playlist fuel R playlist_id (Some 0) l =
  get_playlist fuel R playlist_id None l.
Proof.
  unfold get_playlist, try_except, bind at 1 3, execute.
  destruct (playlists_list_id R l _ _) as [e|response]; [reflexivity|].
  destruct (default [] (plr_items response)) as [|info others]; [reflexivity|].
  unfold bind. now rewrite fetch_pages_zero_cap.
Qed.

(** X8. A negative cap: when the playlist exists and its first page can
    be fetched, [get_playlist] returns the first item of that page alone
    (nothing if the page is empty) and requests no second page, whatever
    token the first page carries. *)
Theorem get_playlist_negative_cap n fuel l response info others page :
  n < 0 ->
  playlists_list_id R l "snippet,contentDetails" playlist_id = inr response ->
  plr_items response = Some (info :: others) ->
  playlistItems_list R (l ++ [metadata_call playlist_id]) playlist_id 50 None
    = inr page ->
  exists result,
    get_playlist (S fuel) R playlist_id (Some n) l =
      (Ret result,
       (l ++ [metadata_call playlist_id]) ++ [PlaylistItemsList playlist_id 50 None])
    /\ pl_tracks result = map playlist_track_of (firstn 1 (page_items page)).
Proof.
  intros Hn Hmeta Hitems Hpage.
  apply (get_playlist_run R playlist_id (S fuel) (Some n) l response info others);
    trivial.
  cbn [fetch_pages]. unfold bind, execute. rewrite Hpage.
  rewrite collect_items_negative by trivial. cbn [app].
  assert (Hreached : forall tracks, limit_reached (Some n) tracks = true).
  { intros tracks. unfold limit_reached.
    destruct (Z.eqb_spec n 0); [lia|].
    destruct (Z.leb_spec n (Z.of_nat (length tracks))); [reflexivity|lia]. }
  rewrite Hreached, orb_true_r. reflexivity.
Qed.

Lemma fetch_pages_failure e pages : forall fuel l token tracks,
  serves R playlist_id l token pages ->
  (pages <> [] -> Py.truthy_str (last_token pages) = true) ->
  playlistItems_list R (l ++ page_calls playlist_id token pages) playlist_id 50
    (match pages with [] => token | _ :: _ => last_token pages end) = inl e ->
  (length pages < fuel)%nat ->
  fetch_pages fuel R playlist_id None token tracks l =
  (Raise e,
   (l ++ page_calls playlist_id token pages)
   ++ [PlaylistItemsList playlist_id 50
         (match pages with [] => token | _ :: _ => last_token pages end)]).
Proof.
  induction pages as [|page rest IH]; intros fuel l token tracks Hs Hlast Hfail Hfuel;
    (destruct fuel as [|fuel]; [cbn in Hfuel; lia|]).
  - cbn [page_calls] in *. rewrite app_nil_r in *.
    cbn [fetch_pages]. unfold bind, execute. now rewrite Hfail.
  - destruct Hs as [Hpage Hrest].
    cbn [fetch_pages]. unfold bind, execute. rewrite Hpage.
    rewrite collect_items_no_cap. cbn [limit_reached orb].
    destruct rest as [|page2 rest].
    + cbn [last_token page_calls] in *. rewrite (Hlast ltac:(discriminate)).
      cbn [negb orb]. destruct fuel as [|fuel]; [cbn in Hfuel; lia|].
      cbn [fetch_pages]. unfold bind, execute. now rewrite Hfail.
    + destruct Hrest as [Htok Hrest]. rewrite Htok. cbn [negb orb].
      cbn [page_calls] in Hfail |- *.
      rewrite (IH fuel _ _ _ Hrest).
      * cbn [page_calls last_token]. now rewrite <- !app_assoc.
      * intros _. apply Hlast. discriminate.
      * cbn [page_calls last_token] in Hfail |- *.
        now rewrite <- app_assoc.
      * cbn in *. lia.
Qed.

(** X9. Retrieval is all or nothing: when the playlist exists and the
    remote serves some pages (possibly none), each with a continuation
    token, and then fails the next page request with [e], [get_playlist]
    without a cap raises [RuntimeError("Failed to retrieve playlist: " +
    str(e))]; the tracks of the pages already fetched are not
    returned. *)
Theorem get_playlist_page_failure fuel l response info others pages e :
  playlists_list_id R l "snippet,contentDetails" playlist_id = inr response ->
  plr_items response = Some (info :: others) ->
  serves R playlist_id (l ++ [metadata_call playlist_id]) None pages ->
  (pages <> [] -> Py.truthy_str (last_token pages) = true) ->
  playlistItems_list R
    ((l ++ [metadata_call playlist_id]) ++ page_calls playlist_id None pages)
    playlist_id 50 (last_token pages) = inl e ->
  (length pages < fuel)%nat ->
  get_playlist fuel R playlist_id None l =
  (Raise (Exn RuntimeError ("Failed to retrieve playlist: " +:+ exn_str e)),
   ((l ++ [metadata_call playlist_id]) ++ page_calls playlist_id None pages)
   ++ [PlaylistItemsList playlist_id 50 (last_token pages)]).
Proof.
  intros Hmeta Hitems Hserves Hlast Hfail Hfuel.
  assert (Hnext : match pages with [] => None | _ :: _ => last_token pages end
                  = last_token pages) by now destruct pages.
  pose proof (fetch_pages_failure e pages fuel (l ++ [metadata_call playlist_id])
                None [] Hserves Hlast) as Hfetch.
  rewrite Hnext in Hfetch. specialize (Hfetch Hfail Hfuel).
  unfold metadata_call in Hfetch.
  unfold get_playlist, try_except, bind at 1, execute.
  rewrite Hmeta, Hitems. unfold bind. cbn [default from_option id].
  now rewrite Hfetch.
Qed.

End PaginationMore.

Lemma get_playlist_at_most_cap_witness :
  exists result l',
    get_playlist 5 Scenario.service "PL1" (Some 3) [] = (Ret result, l')
    /\ Z.of_nat (length (pl_tracks result)) <= 3.
Proof.
  eexists _, _. split; [reflexivity|].
  eapply (get_playlist_at_most_cap Scenario.service "PL1" 3 5 []);
    [lia|reflexivity].
Defined.

(** A cap of -1 on a playlist of five tracks in three pages: one track,
    one page request. *)
Lemma get_playlist_negative_cap_witness :
  exists result,
    get_playlist 1 Scenario.service "PL1" (Some (-1)) [] =
      (Ret result,
       [ PlaylistsListId "snippet,contentDetails" "PL1";
         PlaylistItemsList "PL1" 50 None ])
    /\ length (pl_tracks result) = 1%nat.
Proof.
  destruct (get_playlist_negative_cap Scenario.service "PL1" (-1) 0 []
              {| plr_items := Some [Scenario.the_playlist] |}
              Scenario.the_playlist [] Scenario.page1)
    as (result & Hrun & Htracks); [lia|reflexivity..|].
  exists result. split; [exact Hrun|]. now rewrite Htracks.
Defined.

(** The second page cannot be fetched: the two tracks of the first page
    are lost with it. *)
Lemma get_playlist_page_failure_witness :
  get_playlist 2 Edge.terse "PL1" None [] =
  (Raise (Exn RuntimeError "Failed to retrieve playlist: quotaExceeded"),
   [ PlaylistsListId "snippet,contentDetails" "PL1";
     PlaylistItemsList "PL1" 50 None;
     PlaylistItemsList "PL1" 50 (Some "t1") ]).
Proof.
  apply (get_playlist_page_failure Edge.terse "PL1" 2 []
           {| plr_items := Some [Scenario.the_playlist] |}
           Scenario.the_playlist [] [Scenario.page1] Scenario.http_error).
  - reflexivity.
  - reflexivity.
  - cbn. repeat split.
  - reflexivity.
  - reflexivity.
  - cbn. lia.
Defined.

(** ** Missing playlists *)

Section Missing.
Variable R : Remote.
Variable playlist_id : string.

(** X10. When the remote lists no playlist under the id, [get_playlist]
    raises [RuntimeError("Failed to retrieve playlist: Playlist not
    found: <id>")] whatever the cap and even without fuel: the metadata
    call is its only remote call, no page is requested. *)
Theorem get_playlist_missing fuel limit l response :
  playlists_list_id R l "snippet,contentDetails" playlist_id = inr response ->
  default [] (plr_items response) = [] ->
  get_playlist fuel R playlist_id limit l =
  (Raise (Exn RuntimeError
            ("Failed to retrieve playlist: Playlist not found: " +:+ playlist_id)),
   l ++ [PlaylistsListId "snippet,contentDetails" playlist_id]).
Proof. apply get_playlist_not_found. Qed.

(** X11. When the remote lists no playlist under the id,
    [update_playlist] raises [RuntimeError("Failed to update playlist:
    Playlist not found: <id>")] and writes nothing: the lookup is its
    only remote call. *)
Theorem update_playlist_missing title description l response :
  playlists_list_id R l "snippet,status" playlist_id = inr response ->
  default [] (plr_items response) = [] ->
  update_playlist R playlist_id title description l =
  (Raise (Exn RuntimeError
            ("Failed to update playlist: Playlist not found: " +:+ playlist_id)),
   l ++ [PlaylistsListId "snippet,status" playlist_id]).
Proof. apply update_playlist_not_found. Qed.

(** What [update_playlist] makes of the answer to its write. *)
Lemma update_playlist_run title description l current playlist others snippet
    result :
  playlists_list_id R l "snippet,status" playlist_id = inr current ->
  plr_items current = Some (playlist :: others) ->
  pr_snippet playlist = Some snippet ->
  let body :=
    {| ub_id := playlist_id;
       ub_snippet := overlay title description snippet;
       ub_status := default (JRaw "{}" false) (pr_status playlist) |} in
  playlists_update R (l ++ [PlaylistsListId "snippet,status" playlist_id]) body
    = inr result ->
  update_playlist R playlist_id title description l =
  (match pr_snippet result with
   | None => Raise (Exn RuntimeError "Failed to update playlist: 'snippet'")
   | Some rs =>
       match rs !! "title", rs !! "description" with
       | None, _ => Raise (Exn RuntimeError "Failed to update playlist: 'title'")
       | Some _, None =>
           Raise (Exn RuntimeError "Failed to update playlist: 'description'")
       | Some t, Some d =>
           Ret {| ur_status := "updated"; ur_playlistId := playlist_id;
                  ur_title := t; ur_description := d |}
       end
   end,
   l ++ [PlaylistsListId "snippet,status" playlist_id; PlaylistsUpdate body]).
Proof.
  intros Hlist Hitems Hsnippet body Hupdate.
  unfold update_playlist, try_except, bind at 1, execute.
  rewrite Hlist, Hitems. cbn [default from_option id].
  rewrite Hsnippet. unfold getitem at 1. rewrite bind_ret_l.
  fold body. unfold bind at 1. rewrite Hupdate.
  unfold bind, getitem, ret, raise. rewrite <- app_assoc. cbn [app].
  destruct (pr_snippet result) as [rs|]; [|reflexivity].
  destruct (rs !! "title"); [|reflexivity].
  destruct (rs !! "description"); reflexivity.
Qed.

(** X12. The title and description that [update_playlist] returns are
    those of the remote's answer to the write, not the arguments. *)
Theorem update_playlist_returns_answer title description l current playlist
    others snippet result rs t d :
  playlists_list_id R l "snippet,status" playlist_id = inr current ->
  plr_items current = Some (playlist :: others) ->
  pr_snippet playlist = Some snippet ->
  playlists_update R (l ++ [PlaylistsListId "snippet,status" playlist_id])
    {| ub_id := playlist_id;
       ub_snippet := overlay title description snippet;
       ub_status := default (JRaw "{}" false) (pr_status playlist) |}
    = inr result ->
  pr_snippet result = Some rs ->
  rs !! "title" = Some t ->
  rs !! "description" = Some d ->
  fst (update_playlist R playlist_id title description l) =
  Ret {| ur_status := "updated"; ur_playlistId := playlist_id;
         ur_title := t; ur_description := d |}.
Proof.
  intros Hlist Hitems Hsnippet Hupdate Hrs Ht Hd.
  rewrite (update_playlist_run _ _ _ _ _ _ _ _ Hlist Hitems Hsnippet Hupdate).
  now rewrite Hrs, Ht, Hd.
Qed.

(** X13. When the remote's answer to the write has a title but no
    description, [update_playlist] raises [RuntimeError("Failed to update
    playlist: 'description'")] although the write was made: the update
    call is in the log. *)
Theorem update_playlist_fails_after_write title description l current playlist
    others snippet result rs t :
  playlists_list_id R l "snippet,status" playlist_id = inr current ->
  plr_items current = Some (playlist :: others) ->
  pr_snippet playlist = Some snippet ->
  playlists_update R (l ++ [PlaylistsListId "snippet,status" playlist_id])
    {| ub_id := playlist_id;
       ub_snippet := overlay title description snippet;
       ub_status := default (JRaw "{}" false) (pr_status playlist) |}
    = inr result ->
  pr_snippet result = Some rs ->
  rs !! "title" = Some t ->
  rs !! "description" = None ->
  update_playlist R playlist_id title description l =
  (Raise (Exn RuntimeError "Failed to update playlist: 'description'"),
   l ++ [ PlaylistsListId "snippet,status" playlist_id;
          PlaylistsUpdate
            {| ub_id := playlist_id;
               ub_snippet := overlay title description snippet;
               ub_status := default (JRaw "{}" false) (pr_status playlist) |} ]).
Proof.
  intros Hlist Hitems Hsnippet Hupdate Hrs Ht Hd.
  rewrite (update_playlist_run _ _ _ _ _ _ _ _ Hlist Hitems Hsnippet Hupdate).
  now rewrite Hrs, Ht, Hd.
Qed.

End Missing.

Lemma get_playlist_missing_witness :
  get_playlist 0 Scenario.service "PLX" (Some 3) [] =
  (Raise (Exn RuntimeError "Failed to retrieve playlist: Playlist not found: PLX"),
   [PlaylistsListId "snippet,contentDetails" "PLX"]).
Proof.
  exact (get_playlist_missing Scenario.service "PLX" 0 (Some 3) [] _
           eq_refl eq_refl).
Defined.

Lemma update_playlist_missing_witness :
  update_playlist Scenario.service "PLX" (Some "New") None [] =
  (Raise (Exn RuntimeError "Failed to update playlist: Playlist not found: PLX"),
   [PlaylistsListId "snippet,status" "PLX"]).
Proof.
  exact (update_playlist_missing Scenario.service "PLX" (Some "New") None [] _
           eq_refl eq_refl).
Defined.

(** The remote echoes the write: the new title comes back. *)
Lemma update_playlist_returns_answer_witness :
  fst (update_playlist Scenario.service "PL1" (Some "Neu! 2") None []) =
  Ret {| ur_status := "updated"; ur_playlistId := "PL1";
         ur_title := JStr "Neu! 2"; ur_description := JStr "first album" |}.
Proof.
  exact (update_playlist_returns_answer Scenario.service "PL1" (Some "Neu! 2")
           None [] _ Scenario.the_playlist [] Scenario.the_snippet _ _ _ _
           eq_refl eq_refl eq_refl eq_refl eq_refl eq_refl eq_refl).
Defined.

(** The remote leaves the description out of its answer: the update is
    made and reported as failed. *)
Lemma update_playlist_fails_after_write_witness :
  exists body,
    update_playlist Edge.terse "PL1" (Some "Neu! 2") None [] =
    (Raise (Exn RuntimeError "Failed to update playlist: 'description'"),
     [PlaylistsListId "snippet,status" "PL1"; PlaylistsUpdate body])
    /\ ub_snippet body !! "title" = Some (JStr "Neu! 2").
Proof.
  eexists. split.
  - exact (update_playlist_fails_after_write Edge.terse "PL1" (Some "Neu! 2")
             None [] _ Scenario.the_playlist [] Scenario.the_snippet _ _ _
             eq_refl eq_refl eq_refl eq_refl eq_refl eq_refl eq_refl).
  - reflexivity.
Defined.

(** ** [search_and_add_to_playlist]: what the result does not tell *)

Section BatchMore.
Variable playlist_id : string.

Lemma search_loop_same_searches (R R' : Remote) queries :
  (forall l q type n category,
      search_list R l q type n category = search_list R' l q type n category) ->
  forall acc l, search_loop R queries acc l = search_loop R' queries acc l.
Proof.
  intros Hsame. induction queries as [|query rest IH]; intros acc l;
    [reflexivity|].
  cbn [search_loop]. unfold search_one, try_except, bind.
  rewrite !search_tracks_run, Hsame.
  destruct (search_list R' l _ _ _ _) as [e|response]; cbn [ret]; [apply IH|].
  destruct (map _ _) as [|r0 results]; cbn [ret]; [apply IH|].
  destruct (Py.truthy_str (t_videoId r0)); apply IH.
Qed.

(** X14. The result of [search_and_add_to_playlist] depends on the
    searches alone: two remotes that answer every search alike give the
    same [addedCount], [addedTracks] and [failedQueries], however
    differently they treat the inserts of the bulk add.  In particular
    [addedCount] counts a track whose insert was refused. *)
Theorem search_and_add_ignores_inserts (R R' : Remote) queries l :
  (forall l q type n category,
      search_list R l q type n category = search_list R' l q type n category) ->
  fst (search_and_add_to_playlist R playlist_id queries l) =
  fst (search_and_add_to_playlist R' playlist_id queries l).
Proof.
  intros Hsame.
  destruct (search_loop_run R queries empty_acc l) as (acc & Hloop & _).
  pose proof Hloop as Hloop'.
  rewrite (search_loop_same_searches R R' queries Hsame) in Hloop'.
  rewrite (search_and_add_run R playlist_id queries l acc _ Hloop).
  rewrite (search_and_add_run R' playlist_id queries l acc _ Hloop').
  reflexivity.
Qed.

(** X15. The remote calls of [search_and_add_to_playlist] are one search
    per query, in input order, each for one "songs" result, followed by
    one insert per added track, in the order of [addedTracks]: every
    search precedes every insert, and nothing is inserted when no query
    resolved. *)
Theorem search_and_add_calls (R : Remote) queries l :
  exists result,
    search_and_add_to_playlist R playlist_id queries l =
    (Ret result,
     (l ++ map search_call queries)
     ++ map (PlaylistItemsInsert playlist_id)
          (map at_videoId (br_addedTracks result))).
Proof.
  destruct (search_loop_run R queries empty_acc l)
    as (acc & Hloop & _ & _ & Hids).
  specialize (Hids eq_refl).
  rewrite (search_and_add_run R playlist_id queries l acc _ Hloop), Hids.
  exists {| br_status := "completed";
            br_addedCount := length (map at_videoId (added_tracks acc));
            br_addedTracks := added_tracks acc;
            br_failedQueries := failed_queries acc |}.
  reflexivity.
Qed.

Lemma search_loop_added (R : Remote) (P : added_track -> Prop) queries :
  (forall query r0, Py.truthy_str (t_videoId r0) = true ->
     length (t_artists r0) = 1%nat ->
     P {| at_query := query; at_matched := t_title r0;
          at_artists := map a_name (t_artists r0);
          at_videoId := default "" (t_videoId r0) |}) ->
  forall acc l acc' l',
    search_loop R queries acc l = (Ret acc', l') ->
    Forall P (added_tracks acc) -> Forall P (added_tracks acc').
Proof.
  intros HP. induction queries as [|query rest IH]; intros acc l acc' l'.
  - now intros [= <- _].
  - cbn [search_loop]. unfold bind at 1, try_except, search_one.
    unfold bind at 1. rewrite search_tracks_run.
    destruct (search_list R l _ _ _ _) as [e|response]; cbn [ret].
    + intros Hrest Hacc. exact (IH _ _ _ _ Hrest Hacc).
    + destruct (default [] (sr_items response)) as [|item items]; cbn [map ret].
      * intros Hrest Hacc. exact (IH _ _ _ _ Hrest Hacc).
      * destruct (Py.truthy_str (t_videoId _)) eqn:Hid.
        -- intros Hrest Hacc. apply (IH _ _ _ _ Hrest).
           cbn [added_tracks]. apply Forall_app. split; [exact Hacc|].
           constructor; [|constructor]. now apply HP.
        -- intros Hrest Hacc. exact (IH _ _ _ _ Hrest Hacc).
Qed.

(** X16. Every entry of [addedTracks] has a non-empty [videoId] and
    exactly one artist name. *)
Theorem search_and_add_tracks_have_ids (R : Remote) queries l :
  Forall (fun t => at_videoId t <> "" /\ length (at_artists t) = 1%nat)
    (match fst (search_and_add_to_playlist R playlist_id queries l) with
     | Ret result => br_addedTracks result
     | _ => []
     end).
Proof.
  destruct (search_loop_run R queries empty_acc l) as (acc & Hloop & _).
  rewrite (search_and_add_run R playlist_id queries l acc _ Hloop).
  cbn [fst br_addedTracks].
  apply (search_loop_added R _ queries) with (acc := empty_acc) (l := l)
    (l' := l ++ map search_call queries); [|exact Hloop|constructor].
  intros query r0 Hid Hart. cbn. split; [|now rewrite length_map].
  destruct (t_videoId r0) as [s|]; [|discriminate]. cbn in *.
  intros ->. discriminate.
Qed.

End BatchMore.

(** One query resolves; on a remote that refuses every insert the result
    still reports one added track. *)
Lemma search_and_add_ignores_inserts_witness :
  fst (search_and_add_to_playlist Edge.refusing "PL1" ["Neu! Hallogallo"] []) =
  fst (search_and_add_to_playlist Scenario.service "PL1" ["Neu! Hallogallo"] [])
  /\ successes Edge.refusing "PL1" [search_call "Neu! Hallogallo"] ["abc123"]
     = 0%nat.
Proof.
  split; [|reflexivity].
  apply (search_and_add_ignores_inserts "PL1" Edge.refusing Scenario.service).
  reflexivity.
Defined.

(** ** [get_library_playlists] *)

(** X17. [get_library_playlists] makes one remote call, with
    [maxResults = min(limit, 50)], and when it returns, its list has one
    entry per playlist of that single answer, in the order of the answer
    (the ids match position by position): it never asks for a further
    page. *)
Theorem get_library_playlists_one_page (R : Remote) limit l :
  snd (get_library_playlists R limit l) = l ++ [PlaylistsListMine (Z.min limit 50)]
  /\ Z.min limit 50 <= 50
  /\ forall playlists,
       fst (get_library_playlists R limit l) = Ret playlists ->
       exists response,
         playlists_list_mine R l (Z.min limit 50) = inr response
         /\ length playlists = length (default [] (plr_items response))
         /\ map lp_playlistId playlists
            = map pr_id (default [] (plr_items response)).
Proof.
  unfold get_library_playlists, try_except, bind, execute.
  destruct (playlists_list_mine R l (Z.min limit 50)) as [e|response]; cbn.
  - repeat split; [lia|discriminate].
  - repeat split; [lia|]. intros playlists [= <-].
    exists response. rewrite length_map, map_map. auto.
Qed.

Lemma get_library_playlists_one_page_witness :
  snd (get_library_playlists Scenario.service 200 []) = [PlaylistsListMine 50]
  /\ exists playlists,
       fst (get_library_playlists Scenario.service 200 []) = Ret playlists
       /\ map lp_playlistId playlists = [Some "PL1"].
Proof.
  destruct (get_library_playlists_one_page Scenario.service 200 [])
    as (Hlog & _ & Hret).
  split; [exact Hlog|].
  eexists. split; [reflexivity|].
  destruct (Hret _ eq_refl) as (response & Hresp & _ & Hids).
  vm_compute in Hresp. injection Hresp as <-. exact Hids.
Defined.

(** * Further properties of the dispatchers *)

(** ** Required arguments and unknown tools *)

Ltac missing_argument args :=
  destruct args as [q lim flt ti de pr vi pl sq qs];
  unfold first_missing, has_argument; cbn [List.find String.eqb Ascii.eqb Bool.eqb
    tool_required tool_name arg_query arg_limit arg_filter arg_title
    arg_description arg_privacy_status arg_video_ids arg_playlist_id
    arg_search_queries arg_queries negb];
  repeat match goal with
         | |- context [bool_decide (is_Some ?o)] => destruct o; cbn
         end;
  intros [= <-]; reflexivity.

(** X18. For every tool that [list_tools] of [src/server.py] advertises:
    when the arguments lack one of the properties its schema requires,
    [call_tool] answers ["Error: '<key>'"] for the first such property and
    makes no remote call. *)
Theorem local_missing_argument fuel (R : Remote) t args key l :
  In t local_list_tools ->
  first_missing (tool_required t) args = Some key ->
  Server.call_tool fuel R (tool_name t) args l
  = (Ret (text ("Error: '" +:+ key +:+ "'")), l).
Proof.
  intros Hin. cbn in Hin.
  repeat (destruct Hin as [<-|Hin]; [missing_argument args|]).
  contradiction.
Qed.

(** X19. The same for [src/server_remote.py]. *)
Theorem remote_missing_argument fuel (R : Remote) t args key l :
  In t remote_list_tools ->
  first_missing (tool_required t) args = Some key ->
  ServerRemote.call_tool fuel R (tool_name t) args l
  = (Ret (text ("Error: '" +:+ key +:+ "'")), l).
Proof.
  intros Hin. cbn in Hin.
  repeat (destruct Hin as [<-|Hin]; [missing_argument args|]).
  contradiction.
Qed.

Lemma local_missing_argument_witness :
  Server.call_tool 0 Scenario.service "add_tracks_to_playlist"
    {| arg_query := None; arg_limit := None; arg_filter := None;
       arg_title := None; arg_description := None;
       arg_privacy_status := None; arg_video_ids := None;
       arg_playlist_id := Some "PL1"; arg_search_queries := None;
       arg_queries := None |} []
  = (Ret (text "Error: 'video_ids'"), []).
Proof.
  apply (local_missing_argument 0 Scenario.service
           {| tool_name := "add_tracks_to_playlist";
              tool_properties := [("playlist_id", "string"); ("video_ids", "array")];
              tool_required := ["playlist_id"; "video_ids"] |}
           _ "video_ids" []).
  - cbn. auto.
  - reflexivity.
Defined.

Lemma remote_missing_argument_witness :
  ServerRemote.call_tool 0 Scenario.service "delete_playlist"
    Scenario.no_arguments []
  = (Ret (text "Error: 'playlist_id'"), []).
Proof.
  apply (remote_missing_argument 0 Scenario.service
           {| tool_name := "delete_playlist";
              tool_properties := [("playlist_id", "string")];
              tool_required := ["playlist_id"] |}
           _ "playlist_id" []).
  - cbn. auto 10.
  - reflexivity.
Defined.

Lemma not_in_cons_eqb (name x : string) (xs : list string) :
  ~ In name (x :: xs) -> String.eqb name x = false /\ ~ In name xs.
Proof.
  intros H. split.
  - apply String.eqb_neq. intros ->. apply H. now left.
  - intros Hin. apply H. now right.
Qed.

Ltac unknown_name H :=
  cbn [map tool_name local_list_tools remote_list_tools] in H;
  repeat (apply not_in_cons_eqb in H;
          let E := fresh "E" in destruct H as [E H]; rewrite E);
  reflexivity.

(** X20. A name that [list_tools] does not advertise is not dispatched:
    [src/server.py] answers ["Error: Unknown tool: <name>"] and
    [src/server_remote.py] answers ["Unknown tool: <name>"], each without
    a remote call. *)
Theorem unknown_tool_name fuel (R : Remote) name args l :
  (~ In name (map tool_name local_list_tools) ->
   Server.call_tool fuel R name args l
   = (Ret (text ("Error: Unknown tool: " +:+ name)), l))
  /\ (~ In name (map tool_name remote_list_tools) ->
      ServerRemote.call_tool fuel R name args l
      = (Ret (text ("Unknown tool: " +:+ name)), l)).
Proof.
  split; intros H.
  - unfold Server.call_tool, Server.call_tool_body, try_except.
    unknown_name H.
  - unfold ServerRemote.call_tool, ServerRemote.call_tool_body, try_except.
    unknown_name H.
Qed.

(** The delete tool exists in [src/server_remote.py] only. *)
Lemma unknown_tool_name_witness :
  Server.call_tool 0 Scenario.service "delete_playlist" Scenario.no_arguments []
  = (Ret (text "Error: Unknown tool: delete_playlist"), [])
  /\ ServerRemote.call_tool 0 Scenario.service "get_library_playlists"
       Scenario.no_arguments []
     = (Ret (text "Unknown tool: get_library_playlists"), []).
Proof.
  split.
  - apply (unknown_tool_name 0 Scenario.service "delete_playlist").
    cbn. intros H. repeat (destruct H as [H|H]; [discriminate|]). exact H.
  - apply (unknown_tool_name 0 Scenario.service "get_library_playlists").
    cbn. intros H. repeat (destruct H as [H|H]; [discriminate|]). exact H.
Defined.

(** ** [src/server.py]: results without a channel name *)

Lemma lines_of_raise {A} (f : A -> M string) (e : exn) (xs : list A) :
  Forall (fun x => (exists s, forall l, f x l = (Ret s, l))
                   \/ (forall l, f x l = (Raise e, l))) xs ->
  Exists (fun x => forall l, f x l = (Raise e, l)) xs ->
  forall l, lines_of f xs l = (Raise e, l).
Proof.
  induction xs as [|x xs IH]; intros Hall Hex l; [inversion Hex|].
  inversion Hall as [|? ? Hx Hxs]; subst.
  cbn [lines_of]. unfold bind.
  destruct Hx as [[s Hs]|Hr].
  - rewrite Hs. inversion Hex as [? ? Hhere|? ? Hlater]; subst.
    + specialize (Hhere l). rewrite Hs in Hhere. discriminate.
    + now rewrite (IH Hxs Hlater).
  - now rewrite Hr.
Qed.

Lemma join_opt_one (name : option string) l :
  join_opt ", " [name] l =
  match name with
  | Some s => (Ret s, l)
  | None => (Raise (Exn TypeError join_error), l)
  end.
Proof. now destruct name. Qed.

Lemma local_search_line (r : track) (a : artist) :
  t_artists r = [a] ->
  match a_name a with
  | Some _ => exists s, forall l, Server.search_line r l = (Ret s, l)
  | None => forall l, Server.search_line r l = (Raise (Exn TypeError join_error), l)
  end.
Proof.
  intros Ha. unfold Server.search_line. rewrite Ha. cbn [Py.truthy_list map].
  destruct (a_name a) as [s|] eqn:Hname.
  - eexists. intros l. unfold bind. rewrite join_opt_one. reflexivity.
  - intros l. unfold bind. now rewrite join_opt_one.
Qed.

Lemma local_added_line (t : added_track) (name : option string) :
  at_artists t = [name] ->
  match name with
  | Some _ => exists s, forall l, Server.added_line t l = (Ret s, l)
  | None => forall l, Server.added_line t l = (Raise (Exn TypeError join_error), l)
  end.
Proof.
  intros Ha. unfold Server.added_line. rewrite Ha.
  destruct name as [s|].
  - eexists. intros l. unfold bind. rewrite join_opt_one. reflexivity.
  - intros l. unfold bind. now rewrite join_opt_one.
Qed.

Section Channel.
Variable fuel : nat.
Variable R : Remote.

(** X21. The search tool of [src/server.py] needs a channel name in
    every hit: when the search succeeds but one item of the remote's
    answer has no [channelTitle], [call_tool] answers ["Error: sequence
    item 0: expected str instance, NoneType found"] instead of the
    results. *)
Theorem local_search_needs_channel args query l response :
  arg_query args = Some query ->
  search_list R l
    (search_query_of query (default "songs" (arg_filter args)))
    (default "video" (type_map !! default "songs" (arg_filter args)))
    (Z.min (default 20 (arg_limit args)) 50)
    (if String.eqb (default "songs" (arg_filter args)) "songs"
     then Some "10" else None) = inr response ->
  Exists (fun item => si_snippet item ≫= ss_channelTitle = None)
    (default [] (sr_items response)) ->
  Server.call_tool fuel R "search_youtube_music" args l
  = (Ret (text ("Error: " +:+ join_error)),
     snd (search_tracks R query (default 20 (arg_limit args))
            (default "songs" (arg_filter args)) l)).
Proof.
  intros Hq Hresp Hex.
  unfold Server.call_tool, try_except, Server.call_tool_body.
  rewrite String.eqb_refl, Hq. unfold getitem. rewrite bind_ret_l.
  unfold bind at 1. rewrite search_tracks_run, Hresp. cbn [snd].
  set (type := default "video" _).
  destruct (default [] (sr_items response)) as [|item items] eqn:Hitems;
    [inversion Hex|].
  cbn [map Py.truthy_list negb]. unfold bind.
  rewrite (lines_of_raise Server.search_line (Exn TypeError join_error)
             (search_result type item :: map (search_result type) items)).
  - reflexivity.
  - change (search_result type item :: map (search_result type) items)
      with (map (search_result type) (item :: items)).
    apply Forall_map, Forall_forall. intros it _.
    pose proof (local_search_line (search_result type it) _ eq_refl) as Hline.
    cbn [a_name] in Hline.
    destruct (si_snippet it ≫= ss_channelTitle); [left|right]; exact Hline.
  - change (search_result type item :: map (search_result type) items)
      with (map (search_result type) (item :: items)).
    apply List.Exists_exists in Hex. destruct Hex as (it & Hin & Hnone).
    apply List.Exists_exists. exists (search_result type it).
    split; [now apply in_map|].
    pose proof (local_search_line (search_result type it) _ eq_refl) as Hline.
    cbn [a_name] in Hline. now rewrite Hnone in Hline.
Qed.

(** X22. The batch tool of [src/server.py] likewise: when
    [search_and_add_to_playlist] returned a result in which an added
    track has no artist name, [call_tool] answers ["Error: sequence item
    0: ..."] although every search and every insert of the operation was
    made. *)
Theorem local_batch_needs_channel args playlist_id queries l result l' :
  arg_playlist_id args = Some playlist_id ->
  arg_search_queries args = Some queries ->
  search_and_add_to_playlist R playlist_id queries l = (Ret result, l') ->
  Exists (fun t => at_artists t = [None]) (br_addedTracks result) ->
  Server.call_tool fuel R "search_and_add_to_playlist" args l
  = (Ret (text ("Error: " +:+ join_error)), l').
Proof.
  intros Hp Hq Hrun Hex.
  assert (Hone : Forall (fun t => length (at_artists t) = 1%nat)
                   (br_addedTracks result)).
  { destruct (search_loop_run R queries empty_acc l) as (acc & Hloop & _).
    rewrite (search_and_add_run R playlist_id queries l acc _ Hloop) in Hrun.
    injection Hrun as <- _. cbn [br_addedTracks].
    apply (search_loop_added R _ queries) with (acc := empty_acc) (l := l)
      (l' := l ++ map search_call queries); [|exact Hloop|constructor].
    intros query r0 _ Hart. cbn. now rewrite length_map. }
  unfold Server.call_tool, try_except, Server.call_tool_body.
  cbn [String.eqb Ascii.eqb Bool.eqb].
  rewrite Hp, Hq. unfold getitem. rewrite !bind_ret_l.
  unfold bind at 1. rewrite Hrun. unfold bind.
  rewrite (lines_of_raise Server.added_line (Exn TypeError join_error)).
  - reflexivity.
  - apply Forall_forall. intros t Hin.
    rewrite Forall_forall in Hone. specialize (Hone t Hin).
    destruct (at_artists t) as [|name [|? ?]] eqn:Ha; try discriminate.
    pose proof (local_added_line t name Ha) as Hline.
    destruct name; [left|right]; exact Hline.
  - apply Exists_exists in Hex. destruct Hex as (t & Hin & Ha).
    apply Exists_exists. exists t. split; [exact Hin|].
    exact (local_added_line t None Ha).
Qed.

End Channel.

Lemma local_search_needs_channel_witness :
  Server.call_tool 0 Edge.anonymous "search_youtube_music"
    {| arg_query := Some "anything"; arg_limit := None; arg_filter := None;
       arg_title := None; arg_description := None;
       arg_privacy_status := None; arg_video_ids := None;
       arg_playlist_id := None; arg_search_queries := None;
       arg_queries := None |} []
  = (Ret (text "Error: sequence item 0: expected str instance, NoneType found"),
     [SearchList "anything music" "video" 20 (Some "10")]).
Proof.
  refine (local_search_needs_channel 0 Edge.anonymous
            {| arg_query := Some "anything"; arg_limit := None;
               arg_filter := None; arg_title := None; arg_description := None;
               arg_privacy_status := None; arg_video_ids := None;
               arg_playlist_id := None; arg_search_queries := None;
               arg_queries := None |} "anything" []
            {| sr_items := Some [Edge.anonymous_hit "zzz" "Untitled"] |}
            eq_refl eq_refl _).
  constructor. reflexivity.
Defined.

(** The track is inserted into the playlist and the tool reports an
    error. *)
Lemma local_batch_needs_channel_witness :
  Server.call_tool 0 Edge.anonymous "search_and_add_to_playlist"
    {| arg_query := None; arg_limit := None; arg_filter := None;
       arg_title := None; arg_description := None;
       arg_privacy_status := None; arg_video_ids := None;
       arg_playlist_id := Some "PL1"; arg_search_queries := Some ["anything"];
       arg_queries := None |} []
  = (Ret (text "Error: sequence item 0: expected str instance, NoneType found"),
     [ SearchList "anything music" "video" 1 (Some "10");
       PlaylistItemsInsert "PL1" "zzz" ]).
Proof.
  refine (local_batch_needs_channel 0 Edge.anonymous
            {| arg_query := None; arg_limit := None; arg_filter := None;
               arg_title := None; arg_description := None;
               arg_privacy_status := None; arg_video_ids := None;
               arg_playlist_id := Some "PL1";
               arg_search_queries := Some ["anything"];
               arg_queries := None |} "PL1" ["anything"] []
            {| br_status := "completed"; br_addedCount := 1;
               br_addedTracks :=
                 [ {| at_query := "anything"; at_matched := Some "Untitled";
                      at_artists := [None]; at_videoId := "zzz" |} ];
               br_failedQueries := [] |} _
            eq_refl eq_refl eq_refl _).
  constructor. reflexivity.
Defined.

(** * Properties of the installer *)

Section Installer.
Import Install.
Variable h : host.
Variable project_path : string.


(** X24. Wherever the config path can be named: on a config file that
    is missing, is not JSON, or holds a JSON object whose ["mcpServers"]
    member is absent or an object, [install_mcp_server] succeeds and
    leaves a config in which ["youtube-music"] is [python -m src.server]
    run from the project directory, every other server entry is as
    before and so is every other member; a file that is not JSON is
    replaced by a config holding this one server.  On a file that cannot
    be decoded it raises [UnicodeDecodeError], and on any other JSON (an
    object whose ["mcpServers"] is not an object, or a value that is not
    an object) it raises [TypeError]; in both cases it writes nothing. *)
Theorem install_registers f p :
  get_config_path h = inr p ->
  match f with
  | Undecodable =>
      install_mcp_server h project_path f = inl UnicodeDecodeError
  | OddServers _ _ | NotAnObject _ =>
      install_mcp_server h project_path f = inl TypeErrorRaised
  | Missing | Unparsable | Parsed _ =>
      exists servers,
        install_mcp_server h project_path f =
          inr (Parsed {| mcpServers := Some servers;
                         others := others (read_or_new f) |}, Added)
        /\ servers !! "youtube-music"
           = Some (Launch "python" ["-m"; "src.server"] project_path)
        /\ (forall name, name <> "youtube-music" ->
              servers !! name = default ∅ (mcpServers (read_or_new f)) !! name)
        /\ (f = Unparsable ->
            servers = {["youtube-music" := this_server project_path]})
  end.
Proof.
  intros Hp. unfold install_mcp_server. rewrite Hp.
  destruct f as [| |c| |v rest|v]; try reflexivity;
    (eexists; split; [reflexivity|];
     split; [apply lookup_insert_eq|];
     split; [intros name Hname; now rewrite lookup_insert_ne|];
     try discriminate; intros _; reflexivity).
Qed.

(** X25. Installing twice is installing once. *)
Theorem install_idempotent f f1 m1 :
  install_mcp_server h project_path f = inr (f1, m1) ->
  install_mcp_server h project_path f1 = inr (f1, m1).
Proof.
  unfold install_mcp_server.
  destruct (get_config_path h) as [e|p]; [discriminate|].
  destruct f as [| |c| |v rest|v]; try discriminate;
    intros [= <- <-]; cbn; now rewrite insert_insert_eq.
Qed.

(** X26. Uninstalling after installing removes this server's entry and
    nothing else: the other server entries and the other members are as
    before the install.  The ["mcpServers"] member stays, empty if the
    config had none. *)
Theorem uninstall_after_install f f1 m1 :
  install_mcp_server h project_path f = inr (f1, m1) ->
  uninstall_mcp_server h f1 =
  inr (Parsed {| mcpServers :=
                   Some (delete "youtube-music"
                           (default ∅ (mcpServers (read_or_new f))));
                 others := others (read_or_new f) |},
       Removed).
Proof.
  unfold install_mcp_server, uninstall_mcp_server.
  destruct (get_config_path h) as [e|p]; [discriminate|].
  destruct f as [| |c| |v rest|v]; try discriminate;
    intros [= <- <-]; cbn [mcpServers others];
    rewrite lookup_insert_eq;
    rewrite bool_decide_eq_true_2 by eauto;
    now rewrite delete_insert_eq.
Qed.

(** X27. [uninstall_mcp_server] rewrites the file only when it holds an
    entry ["youtube-music"]: a missing file, a file that is not JSON and
    a config without the entry are left as they are; after a removal the
    entry is gone and a second uninstall changes nothing. *)
Theorem uninstall_only_removes f f1 m1 :
  uninstall_mcp_server h f = inr (f1, m1) ->
  (m1 <> Removed -> f1 = f)
  /\ (m1 = Removed ->
      exists c servers,
        f = Parsed c /\ mcpServers c = Some servers
        /\ is_Some (servers !! "youtube-music")
        /\ f1 = Parsed {| mcpServers := Some (delete "youtube-music" servers);
                          others := others c |})
  /\ uninstall_mcp_server h f1 =
     inr (f1, match m1 with Removed => NotInConfig | m => m end).
Proof.
  unfold uninstall_mcp_server.
  destruct (get_config_path h) as [e|p]; [discriminate|].
  destruct f as [| |c| |v rest|v];
    [| | |discriminate
     |destruct (has_key "youtube-music" v) as [[|]|] eqn:Hk; try discriminate;
      intros [= <- <-]; rewrite Hk; repeat split; try discriminate; reflexivity
     |destruct (has_key "mcpServers" v) as [[|]|] eqn:Hk; try discriminate;
      intros [= <- <-]; rewrite Hk; repeat split; try discriminate; reflexivity].
  - intros [= <- <-]. repeat split; try discriminate; reflexivity.
  - intros [= <- <-]. repeat split; try discriminate; reflexivity.
  - destruct (mcpServers c) as [servers|] eqn:Hs.
    + destruct (bool_decide (is_Some (servers !! "youtube-music"))) eqn:Hin.
      * intros [= <- <-]. split; [intros H; now destruct H|].
        split.
        -- intros _. exists c, servers. apply bool_decide_eq_true in Hin. auto.
        -- cbn [mcpServers]. rewrite lookup_delete_eq.
           rewrite bool_decide_eq_false_2; [reflexivity|].
           intros [x Hx]. discriminate.
      * intros [= <- <-]. split; [reflexivity|]. split; [discriminate|].
        now rewrite Hs, Hin.
    + intros [= <- <-]. split; [reflexivity|]. split; [discriminate|].
      now rewrite Hs.
Qed.

End Installer.


(** A file that is not JSON is replaced; a file that holds
    [{"mcpServers": null}] or [[]] makes the install raise. *)
Lemma install_registers_witness :
  (exists servers,
     Install.install_mcp_server Install.linux "/srv/yt" Install.Unparsable =
       inr (Install.Parsed {| Install.mcpServers := Some servers;
                              Install.others := ∅ |}, Install.Added)
     /\ servers !! "youtube-music"
        = Some (Install.Launch "python" ["-m"; "src.server"] "/srv/yt"))
  /\ Install.install_mcp_server Install.linux "/srv/yt"
       (Install.OddServers Install.Null ∅) = inl Install.TypeErrorRaised
  /\ Install.install_mcp_server Install.linux "/srv/yt"
       (Install.NotAnObject (Install.Array [])) = inl Install.TypeErrorRaised
  /\ Install.install_mcp_server Install.linux "/srv/yt" Install.Undecodable
     = inl Install.UnicodeDecodeError.
Proof.
  split.
  { destruct (install_registers Install.linux "/srv/yt" Install.Unparsable _
                eq_refl) as (servers & Hrun & Hentry & _).
    exists servers. split; [exact Hrun | exact Hentry]. }
  split.
  { exact (install_registers Install.linux "/srv/yt"
             (Install.OddServers Install.Null ∅) _ eq_refl). }
  split.
  { exact (install_registers Install.linux "/srv/yt"
             (Install.NotAnObject (Install.Array [])) _ eq_refl). }
  exact (install_registers Install.linux "/srv/yt" Install.Undecodable _ eq_refl).
Defined.

Lemma install_idempotent_witness :
  exists f1,
    Install.install_mcp_server Install.linux "/srv/yt" Install.Missing
      = inr (f1, Install.Added)
    /\ Install.install_mcp_server Install.linux "/srv/yt" f1
       = inr (f1, Install.Added).
Proof.
  eexists. split; [reflexivity|].
  apply (install_idempotent Install.linux "/srv/yt" Install.Missing).
  reflexivity.
Defined.

(** Install into no file, then uninstall: an empty ["mcpServers"] is
    left behind. *)
Lemma uninstall_after_install_witness :
  exists f1,
    Install.install_mcp_server Install.linux "/srv/yt" Install.Missing
      = inr (f1, Install.Added)
    /\ Install.uninstall_mcp_server Install.linux f1 =
       inr (Install.Parsed {| Install.mcpServers := Some (delete "youtube-music" ∅);
                              Install.others := ∅ |}, Install.Removed).
Proof.
  eexists. split; [reflexivity|].
  apply (uninstall_after_install Install.linux "/srv/yt" Install.Missing _
           Install.Added).
  reflexivity.
Defined.

Lemma uninstall_only_removes_witness :
  Install.uninstall_mcp_server Install.linux Install.Unparsable
    = inr (Install.Unparsable, Install.CouldNotParse)
  /\ Install.uninstall_mcp_server Install.linux Install.Unparsable
    = inr (Install.Unparsable, Install.CouldNotParse).
Proof.
  split; [reflexivity|].
  exact (proj2 (proj2 (uninstall_only_removes Install.linux Install.Unparsable
                         Install.Unparsable Install.CouldNotParse eq_refl))).
Defined.

(** * Properties of the authentication manager *)

Section Authentication.
Import Auth.
Variable w : world.

Lemma connect_result c file :
  (exists e, connect w c file = (inl (Raised e), file))
  \/ connect w c file = (inr c, file).
Proof. unfold connect. destruct (channels_list w c); eauto. Qed.

(** X28. [is_authenticated] is false exactly when [load_auth] gives up
    on the credentials themselves: it raises its [FileNotFoundError], or
    the exception with which the token file could not be read.  In both
    cases nothing is refreshed, written or called.  So when
    [is_authenticated] holds, [load_auth] can fail only in the refresh
    or in the test call. *)
Theorem load_auth_gives_up_iff :
  (is_authenticated w = false <->
   (fst (load_auth w) = inl (FileNotFoundError no_credentials)
    \/ exists e, the_token w = Token (inl e)
                 /\ fst (load_auth w) = inl (Raised e)))
  /\ (is_authenticated w = false -> snd (load_auth w) = the_token w).
Proof.
  unfold is_authenticated, load_auth.
  destruct (the_token w) as [|[e|c]] eqn:Htok.
  - split; [split|]; eauto.
  - split; [split|]; eauto.
  - destruct (valid c), (refreshable c); cbn [negb orb].
    + split; [split; [discriminate|]|discriminate].
      intros [H|(e & [=] & _)].
      destruct (connect_result c (Token (inr c))) as [[e He]|He];
        rewrite He in H; discriminate.
    + split; [split; [discriminate|]|discriminate].
      intros [H|(e & [=] & _)].
      destruct (connect_result c (Token (inr c))) as [[e He]|He];
        rewrite He in H; discriminate.
    + split; [split; [discriminate|]|discriminate].
      intros [H|(e & [=] & _)].
      destruct (refresh w c) as [e|c']; [discriminate|].
      destruct (connect_result c' (Token (inr c'))) as [[e He]|He];
        rewrite He in H; discriminate.
    + split; [split|]; eauto.
Qed.

(** X29. [load_auth] rewrites the token file only after a refresh: if
    the file it leaves differs from the one it found, the credentials
    found were not valid, were expired and had a refresh token, the
    refresh succeeded, and the file holds the refreshed credentials
    (whether or not the test call then succeeds). *)
Theorem load_auth_writes_after_refresh :
  snd (load_auth w) <> the_token w ->
  exists c c',
    the_token w = Token (inr c)
    /\ valid c = false
    /\ refreshable c = true
    /\ refresh w c = inr c'
    /\ snd (load_auth w) = Token (inr c').
Proof.
  unfold load_auth.
  destruct (the_token w) as [|[e|c]] eqn:Htok; cbn [snd];
    try (intros H; now destruct H).
  assert (Hsnd : forall c0 file, snd (connect w c0 file) = file).
  { intros c0 file. unfold connect. now destruct (channels_list w c0). }
  destruct (valid c) eqn:Hv; cbn [negb].
  - rewrite Hsnd. intros H. now destruct H.
  - destruct (refreshable c) eqn:Hr; [|intros H; now destruct H].
    destruct (refresh w c) as [e|c'] eqn:Hc'; [intros H; now destruct H|].
    rewrite Hsnd. intros _. exists c, c'. auto.
Qed.

(** X30. [setup_oauth] replaces or creates the token file only when
    [client_secret.json] exists, the browser flow succeeds and, if a
    token file is already there, the user's answer is "y" or "Y". *)
Theorem setup_oauth_overwrites_on_yes secrets file answer flow :
  snd (setup_oauth secrets file answer flow) <> file ->
  secrets = true
  /\ (file = NoFile \/ Py.lower answer = "y")
  /\ exists c, flow = inr c
               /\ setup_oauth secrets file answer flow = (inr Saved, Token (inr c)).
Proof.
  unfold setup_oauth.
  destruct secrets; cbn [negb]; [|intros H; now destruct H].
  destruct file as [|parsed].
  - destruct flow as [e|c]; [intros H; now destruct H|].
    intros _. repeat split; eauto.
  - destruct (String.eqb_spec (Py.lower answer) "y") as [Hy|Hy]; cbn [negb];
      [|intros H; now destruct H].
    destruct flow as [e|c]; [intros H; now destruct H|].
    intros _. repeat split; eauto.
Qed.

End Authentication.

Lemma load_auth_gives_up_iff_witness :
  Auth.is_authenticated Auth.lapsed = false
  /\ fst (Auth.load_auth Auth.lapsed)
     = inl (Auth.FileNotFoundError Auth.no_credentials)
  /\ snd (Auth.load_auth Auth.lapsed) = Auth.the_token Auth.lapsed.
Proof.
  destruct (load_auth_gives_up_iff Auth.lapsed) as [[Hto _] Hfile].
  split; [reflexivity|]. split; [reflexivity|].
  exact (Hfile eq_refl).
Defined.

Lemma load_auth_writes_after_refresh_witness :
  exists c c',
    Auth.the_token Auth.renewable = Auth.Token (inr c)
    /\ Auth.valid c = false
    /\ Auth.refreshable c = true
    /\ Auth.refresh Auth.renewable c = inr c'
    /\ snd (Auth.load_auth Auth.renewable) = Auth.Token (inr c').
Proof.
  apply (load_auth_writes_after_refresh Auth.renewable). discriminate.
Defined.

Lemma setup_oauth_overwrites_on_yes_witness :
  Py.lower "Y" = "y"
  /\ Auth.setup_oauth true (Auth.Token (inr Auth.stale)) "Y" (inr Auth.fresh)
     = (inr Auth.Saved, Auth.Token (inr Auth.fresh))
  /\ Auth.setup_oauth true (Auth.Token (inr Auth.stale)) "no" (inr Auth.fresh)
     = (inr Auth.Cancelled, Auth.Token (inr Auth.stale)).
Proof.
  destruct (setup_oauth_overwrites_on_yes true (Auth.Token (inr Auth.stale)) "Y"
              (inr Auth.fresh)) as (_ & _ & c & Hc & Hrun); [discriminate|].
  injection Hc as <-.
  split; [reflexivity|]. split; [exact Hrun|reflexivity].
Defined.
